(** * OperatorOS real-time client: a shallow embedding of [static/js/realtime.js]

    The class [OperatorOSRealTime] is embedded as a record of its fields
    ([client]) next to a record for the parts of the browser it talks to
    ([browser]: the timer table behind [setTimeout]/[setInterval], the
    sockets created by [new WebSocket], [localStorage], the connection
    indicator in the DOM and a chronological trace of what consumers can
    observe).  Every method is a function on [world]; methods that can raise
    a JavaScript exception live in the small exception monad [M].  The event
    loop is the function [step]: one browser event, run to completion.

    The document enters through what its queries return ([page_env]): the
    badge updates of [updateAgentStatusInUI] and [updateTaskStatusInUI]
    are followed as far as they can throw; what they write to the elements,
    and the timeout that takes the highlight off an element after two
    seconds, stay in the document and are not kept.  Numbers are integers
    and a delay is the value of its
    expression over the rationals, which is the double that the code
    computes whenever that value is a double ([is_double]).  Stored
    notifications are kept as values, not as JSON text.  Re-entrant calls
    from consumer callbacks back into the client are outside the
    embedding. *)

From Stdlib Require Import ZArith QArith.
From stdpp Require Import base gmap strings list pretty.
Close Scope Q_scope.
Open Scope string_scope.
Open Scope Z_scope.
Set Warnings "-register-all".

(** ** JavaScript values *)

(** Parsed JSON values, plus [undefined].  Numbers are the integer-valued
    ones; a [Date] is kept as its epoch milliseconds. *)
Inductive jsval :=
| JUndef
| JNull
| JBool (b : bool)
| JNum (n : Z)
| JStr (s : string)
| JArr (items : list jsval)
| JObj (fields : list (string * jsval)).

(** [v.k]: property read on a non-nullish value; a missing property and
    every property of a primitive read as [undefined]. *)
Fixpoint assoc (k : string) (fs : list (string * jsval)) : jsval :=
  match fs with
  | [] => JUndef
  | (k', v) :: fs' => if String.eqb k k' then v else assoc k fs'
  end.

Definition field (k : string) (v : jsval) : jsval :=
  match v with
  | JObj fs => assoc k fs
  | _ => JUndef
  end.

(** [v === "s"] for a string literal [s]. *)
Definition str_is (v : jsval) (s : string) : bool :=
  match v with
  | JStr t => String.eqb t s
  | _ => false
  end.

Definition nullish (v : jsval) : bool :=
  match v with
  | JUndef | JNull => true
  | _ => false
  end.

(** String conversion of a template literal [`${v}`].  It is the
    conversion of the code on the values that [printable] accepts below:
    a number prints as its decimal digits when it is a safe integer, and an
    object prints as [[object Object]] unless it has a [toString] property
    of its own (for which the conversion throws). *)
Fixpoint js_to_string (v : jsval) : string :=
  match v with
  | JUndef => "undefined"
  | JNull => "null"
  | JBool b => if b then "true" else "false"
  | JNum n => pretty n
  | JStr s => s
  | JArr items =>
      (fix join (l : list jsval) : string :=
         match l with
         | [] => ""
         | x :: r =>
             let sx := match x with
                       | JUndef | JNull => ""
                       | _ => js_to_string x
                       end in
             match r with
             | [] => sx
             | _ => sx ++ "," ++ join r
             end
         end) items
  | JObj _ => "[object Object]"
  end.

(** The values on which [js_to_string] is the conversion of the code:
    numbers below [2^53] in absolute value, objects without an own
    [toString], and arrays of such values. *)
Fixpoint printable (v : jsval) : bool :=
  match v with
  | JNum n => Z.abs n <? 2 ^ 53
  | JArr items =>
      (fix all (l : list jsval) : bool :=
         match l with
         | [] => true
         | x :: r => printable x && all r
         end) items
  | JObj fs => negb (existsb (fun kv => String.eqb kv.1 "toString") fs)
  | _ => true
  end.


Definition is_string (v : jsval) : bool :=
  match v with
  | JStr _ => true
  | _ => false
  end.

(** [hay.includes(needle)] *)
Fixpoint includes (needle hay : string) : bool :=
  String.prefix needle hay ||
  match hay with
  | EmptyString => false
  | String _ hay' => includes needle hay'
  end.

(** The names that every plain object inherits from [Object.prototype].
    What is read under each of them is a function (an object for
    [__proto__]): truthy, and not an array. *)
Definition object_prototype_members : list string :=
  ["constructor"; "hasOwnProperty"; "isPrototypeOf"; "propertyIsEnumerable";
   "toLocaleString"; "toString"; "valueOf"; "__defineGetter__";
   "__defineSetter__"; "__lookupGetter__"; "__lookupSetter__"; "__proto__"].

Definition inherited (name : string) : bool :=
  existsb (String.eqb name) object_prototype_members.

(** Object spread [{...base, ...extra}]: a later key replaces an earlier one
    in place, a new key is appended. *)
Fixpoint obj_set (k : string) (v : jsval) (fs : list (string * jsval))
  : list (string * jsval) :=
  match fs with
  | [] => [(k, v)]
  | (k', v') :: fs' =>
      if String.eqb k k' then (k, v) :: fs' else (k', v') :: obj_set k v fs'
  end.

Definition obj_spread (base extra : list (string * jsval))
  : list (string * jsval) :=
  foldl (fun o kv => obj_set kv.1 kv.2 o) base extra.

(** ** Numbers

    Delays are computed in doubles by the code and in rationals here.  The
    two agree on the values that a double holds: [m * 2^e] with
    [|m| < 2^53] and [-1074 <= e <= 971]. *)

(** The exponent of a power of two. *)
Fixpoint log2_exact (p : positive) : option Z :=
  match p with
  | xH => Some 0
  | xO p' =>
      match log2_exact p' with
      | Some e => Some (e + 1)
      | None => None
      end
  | xI _ => None
  end.

Fixpoint odd_part (p : positive) : positive :=
  match p with
  | xO p' => odd_part p'
  | _ => p
  end.

Definition is_double (q : Q) : bool :=
  let r := Qred q in
  match Qnum r with
  | Z0 => true
  | Zpos n | Zneg n =>
      match log2_exact (Qden r) with
      | Some e =>
          (Zpos (odd_part n) <? 2 ^ 53) && (e <=? 1074) &&
          (Zpos n <? 2 ^ 1024 * Zpos (Qden r))
      | None => false
      end
  end.

(** [interval * Math.pow(1.5, attempt - 1)] is computed without rounding:
    the power is a double, and so is its product with the interval.
    ([Math.pow] is within one unit in the last place of the power, hence
    equal to it when the power is a double.) *)
Definition exact_backoff (interval attempt : Z) : bool :=
  is_double (Qpower (3 # 2) (attempt - 1)) &&
  is_double (inject_Z interval * Qpower (3 # 2) (attempt - 1))%Q.

(** ** The data of the client and of the browser *)

(** [this.options], after the defaults were merged with the caller's. *)
Record client_options := {
  reconnectInterval : Z;
  maxReconnectAttempts : Z;
  heartbeatInterval : Z;
  updateThrottle : Z
}.

Definition default_options : client_options :=
  {| reconnectInterval := 5000;
     maxReconnectAttempts := 10;
     heartbeatInterval := 30000;
     updateThrottle := 1000 |}.

(** An entry of [this.updateQueue].  The client itself enqueues two
    closures; [queueUpdate] is public, so any function ([External], that
    returns or throws) or value ([NotAFunction]) can be enqueued too. *)
Inductive update_fn :=
| MetricsRefresh (payload : jsval)
| PoolRefresh
| External (id : nat) (throws : bool)
| NotAFunction (v : jsval).

(** A subscriber: the function reference ([cb_id], compared by [off]) and
    whether a call with a given argument throws. *)
Record callback := {
  cb_id : nat;
  cb_throws : jsval -> bool
}.

(** An element of the document that carries a [data-agent-id] or a
    [data-task-id] attribute: whether a status badge is found inside it. *)
Record element := {
  agentStatusBadge : bool;  (* querySelector('.agent-status-badge') finds one *)
  taskStatusBadge : bool    (* querySelector('.task-status-badge') finds one *)
}.

(** What the page provides around the client.  [querySelectorAll] gives
    the elements that a selector matches, and [None] for a selector that
    does not parse, on which the query throws a [SyntaxError]. *)
Record page_env := {
  dashboard : bool;                 (* window.operatorOSDashboard is set *)
  dashboardThrows : jsval -> bool;  (* updateMetrics/updateCharts throw *)
  toastThrows : bool;               (* its showToast throws, as without bootstrap *)
  pathname : string;                (* window.location.pathname *)
  querySelectorAll : string -> option (list element);
  featherThrows : bool;             (* feather.replace() throws, as without feather *)
  webSocketBlocked : bool           (* new WebSocket(url) throws *)
}.

Inductive timer_callback :=
| ConnectionTimeout
| ReconnectAttempt
| HeartbeatPing
| FlushQueue
| PollMetrics.

Record timer := {
  on_fire : timer_callback;
  delay : Q;
  repeats : bool
}.

Inductive readyState := CONNECTING | OPEN | CLOSING | CLOSED.

(** How the client asked for the socket to close, if it did. *)
Inductive close_call :=
| NotRequested
| CloseNoCode
| CloseWith (code : Z) (reason : string).

Record socket := {
  ready : readyState;
  closing : close_call
}.

(** What consumers and the network can observe, in order. *)
Inductive obs :=
| Delivered (event : string) (cb : nat) (data : jsval)
| FlushStarted
| Invoked (u : update_fn)
| Sent (sock : positive) (msg : jsval)
| Toast (kind : string) (message : string)
| NotificationCount (n : nat)
| ConsoleError (context : string).

Record client := {
  options : client_options;
  websocket : option positive;
  isConnected : bool;
  reconnectAttempts : Z;
  lastHeartbeat : option Z;
  heartbeatTimer : option positive;
  updateQueue : list update_fn;
  updateTimer : option positive;
  listeners : gmap string (list callback);
  pollingInterval : option positive
}.

Record browser := {
  page : page_env;
  timers : gmap positive timer;
  nextTimer : positive;
  sockets : gmap positive socket;
  nextSocket : positive;
  localStorage : gmap string (list jsval);
  clock : Z;
  inflight : nat;           (* fetches of the polling timer not yet settled *)
  indicator : string;       (* class of the #connection-status element *)
  trace : list obs
}.

Record world := {
  this : client;
  env : browser
}.

Definition set_websocket (v : option positive) (c : client) : client :=
  {| options := options c;
     websocket := v;
     isConnected := isConnected c;
     reconnectAttempts := reconnectAttempts c;
     lastHeartbeat := lastHeartbeat c;
     heartbeatTimer := heartbeatTimer c;
     updateQueue := updateQueue c;
     updateTimer := updateTimer c;
     listeners := listeners c;
     pollingInterval := pollingInterval c |}.

Definition set_isConnected (v : bool) (c : client) : client :=
  {| options := options c;
     websocket := websocket c;
     isConnected := v;
     reconnectAttempts := reconnectAttempts c;
     lastHeartbeat := lastHeartbeat c;
     heartbeatTimer := heartbeatTimer c;
     updateQueue := updateQueue c;
     updateTimer := updateTimer c;
     listeners := listeners c;
     pollingInterval := pollingInterval c |}.

Definition set_reconnectAttempts (v : Z) (c : client) : client :=
  {| options := options c;
     websocket := websocket c;
     isConnected := isConnected c;
     reconnectAttempts := v;
     lastHeartbeat := lastHeartbeat c;
     heartbeatTimer := heartbeatTimer c;
     updateQueue := updateQueue c;
     updateTimer := updateTimer c;
     listeners := listeners c;
     pollingInterval := pollingInterval c |}.

Definition set_lastHeartbeat (v : option Z) (c : client) : client :=
  {| options := options c;
     websocket := websocket c;
     isConnected := isConnected c;
     reconnectAttempts := reconnectAttempts c;
     lastHeartbeat := v;
     heartbeatTimer := heartbeatTimer c;
     updateQueue := updateQueue c;
     updateTimer := updateTimer c;
     listeners := listeners c;
     pollingInterval := pollingInterval c |}.

Definition set_heartbeatTimer (v : option positive) (c : client) : client :=
  {| options := options c;
     websocket := websocket c;
     isConnected := isConnected c;
     reconnectAttempts := reconnectAttempts c;
     lastHeartbeat := lastHeartbeat c;
     heartbeatTimer := v;
     updateQueue := updateQueue c;
     updateTimer := updateTimer c;
     listeners := listeners c;
     pollingInterval := pollingInterval c |}.

Definition set_updateQueue (v : list update_fn) (c : client) : client :=
  {| options := options c;
     websocket := websocket c;
     isConnected := isConnected c;
     reconnectAttempts := reconnectAttempts c;
     lastHeartbeat := lastHeartbeat c;
     heartbeatTimer := heartbeatTimer c;
     updateQueue := v;
     updateTimer := updateTimer c;
     listeners := listeners c;
     pollingInterval := pollingInterval c |}.

Definition set_updateTimer (v : option positive) (c : client) : client :=
  {| options := options c;
     websocket := websocket c;
     isConnected := isConnected c;
     reconnectAttempts := reconnectAttempts c;
     lastHeartbeat := lastHeartbeat c;
     heartbeatTimer := heartbeatTimer c;
     updateQueue := updateQueue c;
     updateTimer := v;
     listeners := listeners c;
     pollingInterval := pollingInterval c |}.

Definition set_listeners (v : gmap string (list callback)) (c : client) : client :=
  {| options := options c;
     websocket := websocket c;
     isConnected := isConnected c;
     reconnectAttempts := reconnectAttempts c;
     lastHeartbeat := lastHeartbeat c;
     heartbeatTimer := heartbeatTimer c;
     updateQueue := updateQueue c;
     updateTimer := updateTimer c;
     listeners := v;
     pollingInterval := pollingInterval c |}.

Definition set_pollingInterval (v : option positive) (c : client) : client :=
  {| options := options c;
     websocket := websocket c;
     isConnected := isConnected c;
     reconnectAttempts := reconnectAttempts c;
     lastHeartbeat := lastHeartbeat c;
     heartbeatTimer := heartbeatTimer c;
     updateQueue := updateQueue c;
     updateTimer := updateTimer c;
     listeners := listeners c;
     pollingInterval := v |}.

Definition set_timers (v : gmap positive timer) (b : browser) : browser :=
  {| page := page b;
     timers := v;
     nextTimer := nextTimer b;
     sockets := sockets b;
     nextSocket := nextSocket b;
     localStorage := localStorage b;
     clock := clock b;
     inflight := inflight b;
     indicator := indicator b;
     trace := trace b |}.

Definition set_nextTimer (v : positive) (b : browser) : browser :=
  {| page := page b;
     timers := timers b;
     nextTimer := v;
     sockets := sockets b;
     nextSocket := nextSocket b;
     localStorage := localStorage b;
     clock := clock b;
     inflight := inflight b;
     indicator := indicator b;
     trace := trace b |}.

Definition set_sockets (v : gmap positive socket) (b : browser) : browser :=
  {| page := page b;
     timers := timers b;
     nextTimer := nextTimer b;
     sockets := v;
     nextSocket := nextSocket b;
     localStorage := localStorage b;
     clock := clock b;
     inflight := inflight b;
     indicator := indicator b;
     trace := trace b |}.

Definition set_nextSocket (v : positive) (b : browser) : browser :=
  {| page := page b;
     timers := timers b;
     nextTimer := nextTimer b;
     sockets := sockets b;
     nextSocket := v;
     localStorage := localStorage b;
     clock := clock b;
     inflight := inflight b;
     indicator := indicator b;
     trace := trace b |}.

Definition set_localStorage (v : gmap string (list jsval)) (b : browser) : browser :=
  {| page := page b;
     timers := timers b;
     nextTimer := nextTimer b;
     sockets := sockets b;
     nextSocket := nextSocket b;
     localStorage := v;
     clock := clock b;
     inflight := inflight b;
     indicator := indicator b;
     trace := trace b |}.

Definition set_clock (v : Z) (b : browser) : browser :=
  {| page := page b;
     timers := timers b;
     nextTimer := nextTimer b;
     sockets := sockets b;
     nextSocket := nextSocket b;
     localStorage := localStorage b;
     clock := v;
     inflight := inflight b;
     indicator := indicator b;
     trace := trace b |}.

Definition set_inflight (v : nat) (b : browser) : browser :=
  {| page := page b;
     timers := timers b;
     nextTimer := nextTimer b;
     sockets := sockets b;
     nextSocket := nextSocket b;
     localStorage := localStorage b;
     clock := clock b;
     inflight := v;
     indicator := indicator b;
     trace := trace b |}.

Definition set_indicator (v : string) (b : browser) : browser :=
  {| page := page b;
     timers := timers b;
     nextTimer := nextTimer b;
     sockets := sockets b;
     nextSocket := nextSocket b;
     localStorage := localStorage b;
     clock := clock b;
     inflight := inflight b;
     indicator := v;
     trace := trace b |}.

Definition set_trace (v : list obs) (b : browser) : browser :=
  {| page := page b;
     timers := timers b;
     nextTimer := nextTimer b;
     sockets := sockets b;
     nextSocket := nextSocket b;
     localStorage := localStorage b;
     clock := clock b;
     inflight := inflight b;
     indicator := indicator b;
     trace := v |}.

Definition upd_this (f : client -> client) (w : world) : world :=
  {| this := f (this w); env := env w |}.

Definition upd_env (f : browser -> browser) (w : world) : world :=
  {| this := this w; env := f (env w) |}.

Definition observe_all (os : list obs) (w : world) : world :=
  upd_env (fun b => set_trace (trace b ++ os)%list b) w.

Definition observe (o : obs) (w : world) : world := observe_all [o] w.

(** ** Exceptions

    A computation returns normally or throws; either way the mutations made
    so far stay. *)
Inductive outcome :=
| Normal
| Thrown (error : string).

Definition M := world -> outcome * world.

Definition ret : M := fun w => (Normal, w).

Definition throw (e : string) : M := fun w => (Thrown e, w).

Definition lift (f : world -> world) : M := fun w => (Normal, f w).

Definition andThen (a b : M) : M :=
  fun w =>
    match a w with
    | (Normal, w') => b w'
    | (Thrown e, w') => (Thrown e, w')
    end.

Notation "a ;; b" := (andThen a b) (at level 100, b at level 200).

(** [try { a } catch (error) { console.error(context, error); }] *)
Definition try_log (context : string) (a : M) (w : world) : world :=
  match a w with
  | (Normal, w') => w'
  | (Thrown _, w') => observe (ConsoleError context) w'
  end.

(** A computation keeps [P]: it ends in a world with [P], however it
    ends, when it starts in one. *)
Definition keeps (P : world -> Prop) (a : M) : Prop :=
  forall w, P w -> P (a w).2.

(** ** Browser primitives *)

(** [setTimeout] and [setInterval]: the handle is a fresh positive number,
    hence truthy. *)
Definition setTimer (cb : timer_callback) (d : Q) (rep : bool) (w : world)
  : positive * world :=
  let h := nextTimer (env w) in
  let t := {| on_fire := cb; delay := d; repeats := rep |} in
  (h, upd_env (fun b => set_nextTimer (Pos.succ h)
                          (set_timers (<[h := t]> (timers b)) b)) w).

(** [clearTimeout] and [clearInterval]. *)
Definition clearTimer (h : positive) (w : world) : world :=
  upd_env (fun b => set_timers (delete h (timers b)) b) w.

Definition readyStateOf (s : positive) (w : world) : option readyState :=
  ready <$> sockets (env w) !! s.

Definition set_ready (s : positive) (r : readyState) (w : world) : world :=
  upd_env (fun b =>
    set_sockets (alter (fun k => {| ready := r; closing := closing k |}) s
                   (sockets b)) b) w.

(** [new WebSocket(url)] *)
Definition newWebSocket (w : world) : positive * world :=
  let s := nextSocket (env w) in
  let k := {| ready := CONNECTING; closing := NotRequested |} in
  (s, upd_env (fun b => set_nextSocket (Pos.succ s)
                          (set_sockets (<[s := k]> (sockets b)) b)) w).

(** [socket.close(...)]: starts the closing handshake of a socket that is
    connecting or open, and does nothing otherwise. *)
Definition ws_close (s : positive) (how : close_call) (w : world) : world :=
  match sockets (env w) !! s with
  | Some k =>
      match ready k with
      | CONNECTING | OPEN =>
          upd_env (fun b =>
            set_sockets (<[s := {| ready := CLOSING; closing := how |}]>
                           (sockets b)) b) w
      | _ => w
      end
  | None => w
  end.

(** [socket.send(JSON.stringify(msg))] on an open socket. *)
Definition ws_send (s : positive) (msg : jsval) (w : world) : world :=
  observe (Sent s msg) w.

(** ** Methods of [OperatorOSRealTime] *)

(** [updateConnectionStatus] (lines 443-464) writes the status into the
    class of two DOM elements; the embedding keeps the last status written. *)
Definition updateConnectionStatus (status : string) (w : world) : world :=
  upd_env (set_indicator status) w.

(** *** Event emitter *)

(** [on], [off] and [emit] (lines 565-588).  [this.listeners] is a plain
    object.  Under a name that it inherits from [Object.prototype],
    [this.listeners[event]] is truthy without being an array, so [on] skips
    the initialisation and throws at [push], and [off] throws at [filter];
    neither writes anything.  Hence no such name is ever a key of the
    table.  [emit] is called by the class with the names of its own events
    only. *)
Definition on (event : string) (cb : callback) : M :=
  fun w =>
    if inherited event then (Thrown "TypeError", w)
    else
      (Normal,
       upd_this (fun c =>
         set_listeners
           (<[event := (default [] (listeners c !! event) ++ [cb])%list]>
              (listeners c)) c) w).

Definition off (event : string) (cb : callback) : M :=
  fun w =>
    if inherited event then (Thrown "TypeError", w)
    else
      (Normal,
       match listeners (this w) !! event with
       | Some cbs =>
           upd_this (fun c =>
             set_listeners
               (<[event := filter (fun x => cb_id x ≠ cb_id cb) cbs]> (listeners c)) c) w
       | None => w
       end).

(** The body of the [forEach] in [emit]: one callback, inside its own
    [try]/[catch]. *)
Definition deliver (event : string) (data : jsval) (w : world) (cb : callback)
  : world :=
  let w1 := observe (Delivered event (cb_id cb) data) w in
  if cb_throws cb data
  then observe (ConsoleError ("Error in event listener for " ++ event ++ ":")) w1
  else w1.

Definition emit (event : string) (data : jsval) (w : world) : world :=
  match listeners (this w) !! event with
  | Some cbs => foldl (deliver event data) w cbs
  | None => w
  end.

(** *** Update coalescing queue *)

(** [queueUpdate] (lines 392-400). *)
Definition queueUpdate (u : update_fn) (w : world) : world :=
  let w1 := upd_this (fun c => set_updateQueue (updateQueue c ++ [u])%list c) w in
  match updateTimer (this w1) with
  | Some _ => w1
  | None =>
      let '(h, w2) :=
        setTimer FlushQueue (inject_Z (updateThrottle (options (this w1))))
          false w1 in
      upd_this (set_updateTimer (Some h)) w2
  end.

Definition is_function (u : update_fn) : bool :=
  match u with
  | NotAFunction _ => false
  | _ => true
  end.

(** Whether calling [u()] throws.  The closure of [handleMetricsUpdate]
    calls the dashboard when there is one; the closure of
    [handlePoolScaling] calls an [async] method, which never throws. *)
Definition update_throws (pg : page_env) (u : update_fn) : bool :=
  match u with
  | MetricsRefresh p => dashboard pg && dashboardThrows pg p
  | PoolRefresh => false
  | External _ t => t
  | NotAFunction _ => false
  end.

Definition invoke (u : update_fn) : M :=
  fun w =>
    let w1 := observe (Invoked u) w in
    if update_throws (page (env w)) u
    then (Thrown "Error", w1)
    else (Normal, w1).

(** [this.updateQueue.forEach(updateFn => { if (typeof updateFn ===
    'function') updateFn(); })] *)
Fixpoint forEachUpdate (q : list update_fn) : M :=
  match q with
  | [] => ret
  | u :: q' => (if is_function u then invoke u else ret) ;; forEachUpdate q'
  end.

(** [processUpdateQueue] (lines 402-415): the loop inside [try], a [catch]
    that logs, and a [finally] that empties the buffer and releases the
    handle.  [FlushStarted] marks the call in the trace. *)
Definition processUpdateQueue (w : world) : world :=
  let w0 := observe FlushStarted w in
  let w1 := try_log "Error processing update queue:"
              (forEachUpdate (updateQueue (this w0))) w0 in
  upd_this (fun c => set_updateTimer None (set_updateQueue [] c)) w1.

(** *** Notifications *)

Definition notifications_key : string := "operatorOS_notifications".

Definition getStoredNotifications (w : world) : list jsval :=
  default [] (localStorage (env w) !! notifications_key).

(** [storeNotification] (lines 492-505): [unshift], then [splice(50)] when
    there are more than 50 entries.  The item is written by this method
    only and the storage is taken to have room, so that reading and
    writing it do not throw.  The store keeps each entry as the value it
    was given; the code keeps its JSON text, in which a property that is
    [undefined] is left out and a [Date] becomes a string.  The entries
    that the handlers record are therefore described by their string and
    number properties ([recorded]). *)
Definition storeNotification (notification : jsval) (w : world) : world :=
  let stored := notification :: getStoredNotifications w in
  let stored := if (50 <? length stored)%nat then take 50 stored else stored in
  observe (NotificationCount (length stored))
    (upd_env (fun b =>
       set_localStorage (<[notifications_key := stored]> (localStorage b)) b) w).

Definition clearNotifications (w : world) : world :=
  observe (NotificationCount 0)
    (upd_env (fun b =>
       set_localStorage (delete notifications_key (localStorage b)) b) w).

(** [showNotification] (lines 466-490).  The toast of the dashboard is an
    observation; when the dashboard cannot show it, the exception leaves
    [showNotification] before anything is stored or published. *)
Definition showNotification (message type : string)
    (opts : list (string * jsval)) : M :=
  fun w =>
    let now := clock (env w) in
    let notification :=
      JObj (obj_spread [("id", JNum now); ("message", JStr message);
                        ("type", JStr type); ("timestamp", JNum now)] opts) in
    if dashboard (page (env w)) && toastThrows (page (env w))
    then (Thrown "Error", w)
    else
      let w1 :=
        if dashboard (page (env w)) then
          observe (Toast (if String.eqb type "error" then "error"
                          else if String.eqb type "success" then "success"
                          else "info") message) w
        else w in
      (Normal, emit "notification" notification (storeNotification notification w1)).

(** *** Status badges in the document *)

Definition dquote : string := String (Ascii.ascii_of_nat 34) EmptyString.

(** [`[data-agent-id="${v}"]`] and [`[data-task-id="${v}"]`] *)
Definition attr_selector (attr : string) (v : jsval) : string :=
  "[" ++ attr ++ "=" ++ dquote ++ js_to_string v ++ dquote ++ "]".

(** [getStatusIcon(status)] is truthy: [status] is a key of [iconMap]
    (lines 373-384), its own or inherited. *)
Definition has_status_icon (status : string) : bool :=
  existsb (String.eqb status)
    ["idle"; "busy"; "failed"; "pending"; "processing"; "completed"; "error"] ||
  inherited status.

(** [updateAgentStatusInUI] (lines 319-334).  The query throws on a
    selector that does not parse.  For the first element with a badge,
    [newStatus.charAt] throws unless [newStatus] is a string. *)
Definition updateAgentStatusInUI (agentId newStatus : jsval) : M :=
  fun w =>
    match querySelectorAll (page (env w)) (attr_selector "data-agent-id" agentId) with
    | None => (Thrown "SyntaxError", w)
    | Some elements =>
        if existsb agentStatusBadge elements && negb (is_string newStatus)
        then (Thrown "TypeError", w)
        else (Normal, w)
    end.

(** [updateTaskStatusInUI] (lines 336-358): as above, and for a status with
    an icon [feather.replace()] is called. *)
Definition updateTaskStatusInUI (taskId newStatus : jsval) : M :=
  fun w =>
    match querySelectorAll (page (env w)) (attr_selector "data-task-id" taskId) with
    | None => (Thrown "SyntaxError", w)
    | Some elements =>
        if existsb taskStatusBadge elements then
          match newStatus with
          | JStr status =>
              if has_status_icon status && featherThrows (page (env w))
              then (Thrown "Error", w)
              else (Normal, w)
          | _ => (Thrown "TypeError", w)
          end
        else (Normal, w)
    end.

(** [isUserWatchingTask] (lines 386-390); [None] when the query throws. *)
Definition isUserWatchingTask (taskId : jsval) (w : world) : option bool :=
  if includes ("/task/" ++ js_to_string taskId) (pathname (page (env w)))
  then Some true
  else
    match querySelectorAll (page (env w)) (attr_selector "data-task-id" taskId) with
    | None => None
    | Some elements =>
        Some (match elements with [] => false | _ => true end)
    end.

(** *** Handlers of inbound updates *)

(** [handleMetricsUpdate] (lines 216-225). *)
Definition handleMetricsUpdate (payload : jsval) (w : world) : world :=
  emit "metrics_update" payload (queueUpdate (MetricsRefresh payload) w).

(** Destructuring [const { ... } = payload] throws on [null] and
    [undefined]. *)
Definition destructure (payload : jsval) (body : M) : M :=
  if nullish payload then throw "TypeError" else body.

(** [handleAgentStatusChange] (lines 227-249). *)
Definition handleAgentStatusChange (payload : jsval) : M :=
  destructure payload
    (let agent_id := field "agent_id" payload in
     let old_status := field "old_status" payload in
     let new_status := field "new_status" payload in
     updateAgentStatusInUI agent_id new_status ;;
     (if str_is new_status "failed" then
        showNotification ("Agent " ++ js_to_string agent_id ++ " has failed")
          "warning" [("icon", JStr "alert-triangle")]
      else if str_is old_status "failed" && str_is new_status "idle" then
        showNotification ("Agent " ++ js_to_string agent_id ++ " has recovered")
          "success" [("icon", JStr "check-circle")]
      else ret) ;;
     lift (emit "agent_status_change" payload)).

(** [task_id.slice(0, 8)] inside a template: defined on strings and arrays,
    a [TypeError] on anything else.  On a string it cuts after eight
    bytes, which are the first eight UTF-16 code units when the result is
    [ascii_only]. *)
Definition slice8 (v : jsval) : option string :=
  match v with
  | JStr s => Some (String.substring 0 8 s)
  | JArr items => Some (js_to_string (JArr (take 8 items)))
  | _ => None
  end.

(** [handleTaskStatusChange] (lines 251-275). *)
Definition handleTaskStatusChange (payload : jsval) : M :=
  destructure payload
    (let task_id := field "task_id" payload in
     let new_status := field "new_status" payload in
     updateTaskStatusInUI task_id new_status ;;
     (fun w =>
        match isUserWatchingTask task_id w with
        | None => (Thrown "SyntaxError", w)
        | Some true =>
            if str_is new_status "completed" then
              match slice8 task_id with
              | Some s =>
                  showNotification ("Task " ++ s ++ " completed successfully")
                    "success" [("icon", JStr "check-circle");
                               ("duration", JNum 5000)] w
              | None => (Thrown "TypeError", w)
              end
            else if str_is new_status "failed" then
              match slice8 task_id with
              | Some s =>
                  showNotification ("Task " ++ s ++ " failed")
                    "error" [("icon", JStr "x-circle");
                             ("duration", JNum 7000)] w
              | None => (Thrown "TypeError", w)
              end
            else (Normal, w)
        | Some false => (Normal, w)
        end) ;;
     lift (emit "task_status_change" payload)).

(** [handleSystemAlert] (lines 277-298). *)
Definition handleSystemAlert (payload : jsval) : M :=
  destructure payload
    (let level := field "level" payload in
     let message := field "message" payload in
     let details := field "details" payload in
     let notificationType :=
       if str_is level "error" || str_is level "critical" then "error"
       else if str_is level "warning" then "warning"
       else "info" in
     showNotification ("System Alert: " ++ js_to_string message)
       notificationType
       [("icon", JStr "alert-triangle");
        ("duration", JNum (if str_is level "critical" then 0 else 8000));
        ("details", details)] ;;
     lift (emit "system_alert" payload)).

(** [handlePoolScaling] (lines 300-317). *)
Definition handlePoolScaling (payload : jsval) : M :=
  destructure payload
    (let pool_name := field "pool_name" payload in
     let action := field "action" payload in
     let agent_count := field "agent_count" payload in
     showNotification
       (js_to_string pool_name ++ " pool " ++ js_to_string action ++
        ": now " ++ js_to_string agent_count ++ " agents")
       "info" [("icon", JStr "users")] ;;
     lift (queueUpdate PoolRefresh) ;;
     lift (emit "pool_scaling" payload)).

(** [processRealTimeUpdate] (lines 183-214): the [switch] on [data.type],
    then the publication of the whole frame on the [update] event. *)
Definition processRealTimeUpdate (data : jsval) : M :=
  if nullish data then throw "TypeError" else
  let type := field "type" data in
  let payload := field "payload" data in
  (if str_is type "pong" then ret
   else if str_is type "metrics_update" then lift (handleMetricsUpdate payload)
   else if str_is type "agent_status_change" then handleAgentStatusChange payload
   else if str_is type "task_status_change" then handleTaskStatusChange payload
   else if str_is type "system_alert" then handleSystemAlert payload
   else if str_is type "pool_scaling" then handlePoolScaling payload
   else ret) ;;
  lift (emit "update" data).

(** The text of a frame either fails [JSON.parse] or parses to a value. *)
Inductive frame :=
| Malformed
| Parsed (data : jsval).

Definition handleWebSocketMessage (f : frame) : world -> world :=
  try_log "Failed to parse WebSocket message:"
    match f with
    | Malformed => throw "SyntaxError"
    | Parsed data => processRealTimeUpdate data
    end.

(** *** Heartbeat *)

Definition startHeartbeat (w : world) : world :=
  let '(h, w1) :=
    setTimer HeartbeatPing (inject_Z (heartbeatInterval (options (this w))))
      true w in
  upd_this (set_heartbeatTimer (Some h)) w1.

Definition stopHeartbeat (w : world) : world :=
  match heartbeatTimer (this w) with
  | Some h => upd_this (set_heartbeatTimer None) (clearTimer h w)
  | None => w
  end.

(** [this.isConnected && this.websocket.readyState === WebSocket.OPEN]: the
    right operand is evaluated only when the left one is true, and then
    dereferences [this.websocket]. *)
Definition whenOpen (body : positive -> world -> world) : M :=
  fun w =>
    if isConnected (this w) then
      match websocket (this w) with
      | None => (Thrown "TypeError", w)
      | Some s =>
          match readyStateOf s w with
          | Some OPEN => (Normal, body s w)
          | _ => (Normal, w)
          end
      end
    else (Normal, w).

(** The callback of the heartbeat interval. *)
Definition heartbeatTick : M :=
  whenOpen (fun s w =>
    upd_this (set_lastHeartbeat (Some (clock (env w))))
      (ws_send s (JObj [("type", JStr "ping")]) w)).

(** [send] (lines 558-562). *)
Definition send (data : jsval) : M :=
  whenOpen (fun s w => ws_send s data w).

(** *** Polling fallback *)

(** [startPollingFallback] (lines 417-434) overwrites [this.pollingInterval]
    with the handle of a new interval. *)
Definition startPollingFallback (w : world) : world :=
  let '(h, w1) := setTimer PollMetrics (inject_Z 15000) true w in
  updateConnectionStatus "polling" (upd_this (set_pollingInterval (Some h)) w1).

Definition stopPollingFallback (w : world) : world :=
  match pollingInterval (this w) with
  | Some h => upd_this (set_pollingInterval None) (clearTimer h w)
  | None => w
  end.

(** The callback of the polling interval is [async]: it starts a [fetch]
    and continues in [pollSettled] when the fetch has settled. *)
Definition pollTick (w : world) : world :=
  upd_env (fun b => set_inflight (S (inflight b)) b) w.

Inductive fetch_result :=
| FetchFailed                 (* fetch rejects *)
| FetchNotOk                  (* response.ok is false *)
| FetchBadJson                (* response.json() rejects *)
| FetchJson (data : jsval).

Definition pollSettled (r : fetch_result) (w : world) : world :=
  match r with
  | FetchFailed | FetchBadJson => observe (ConsoleError "Polling update failed:") w
  | FetchNotOk => w
  | FetchJson data => handleMetricsUpdate data w
  end.

(** *** Connection manager *)

Definition socketIsOpen (w : world) : bool :=
  match websocket (this w) with
  | Some s =>
      match readyStateOf s w with
      | Some OPEN => true
      | _ => false
      end
  | None => false
  end.

(** [connect()]; the promise it returns only feeds log messages at its
    callers and is left out. *)
Definition connect (w : world) : world :=
  if socketIsOpen w then w
  else if webSocketBlocked (page (env w)) then w
  else
    let '(s, w1) := newWebSocket w in
    let w2 := upd_this (set_websocket (Some s)) w1 in
    snd (setTimer ConnectionTimeout (inject_Z 5000) false w2).

(** The callback of the connection timeout reads [this.websocket] when it
    runs. *)
Definition connectionTimeout : M :=
  fun w =>
    match websocket (this w) with
    | None => (Thrown "TypeError", w)
    | Some s =>
        match readyStateOf s w with
        | Some OPEN => (Normal, w)
        | _ => (Normal, ws_close s CloseNoCode w)
        end
    end.

(** [handleWebSocketOpen] (lines 108-117). *)
Definition handleWebSocketOpen (w : world) : world :=
  let w1 := upd_this (fun c => set_reconnectAttempts 0 (set_isConnected true c)) w in
  let w2 := startHeartbeat w1 in
  let w3 := emit "connected" JUndef w2 in
  updateConnectionStatus "connected" w3.

(** [scheduleReconnect] (lines 152-165).  The delay is kept as the value of
    [reconnectInterval * Math.pow(1.5, n - 1)] over the rationals, with
    [(3/2)^k] for [Math.pow(1.5, k)]; it is the double that [setTimeout]
    receives where [exact_backoff] holds, and differs from it by rounding
    elsewhere.  The handle that [setTimeout] returns is dropped. *)
Definition scheduleReconnect (w : world) : world :=
  let w1 := upd_this (fun c => set_reconnectAttempts (reconnectAttempts c + 1) c) w in
  let delay :=
    (inject_Z (reconnectInterval (options (this w1))) *
     Qpower (3 # 2) (reconnectAttempts (this w1) - 1))%Q in
  snd (setTimer ReconnectAttempt delay false w1).

(** The callback of the reconnect timeout. *)
Definition reconnectTick (w : world) : world :=
  if isConnected (this w) then w else connect w.

(** [handleWebSocketClose] (lines 128-144). *)
Definition handleWebSocketClose (code : Z) (w : world) : world :=
  let w1 := upd_this (set_isConnected false) w in
  let w2 := stopHeartbeat w1 in
  let w3 := emit "disconnected" JUndef w2 in
  let w4 := updateConnectionStatus "disconnected" w3 in
  if negb (code =? 1000) &&
     (reconnectAttempts (this w4) <? maxReconnectAttempts (options (this w4)))
  then scheduleReconnect w4
  else startPollingFallback w4.

Definition handleWebSocketError (w : world) : world :=
  updateConnectionStatus "error"
    (emit "error" (JObj [("type", JStr "error")]) w).

(** *** Page events and teardown *)

Definition handlePageHidden : M :=
  fun w =>
    if isConnected (this w) then send (JObj [("type", JStr "page_hidden")]) w
    else (Normal, w).

Definition handlePageVisible : M :=
  fun w =>
    if isConnected (this w) then send (JObj [("type", JStr "page_visible")]) w
    else (Normal, connect w).

Definition handleNetworkOnline (w : world) : world :=
  if isConnected (this w) then w else connect w.

Definition handleNetworkOffline (w : world) : world :=
  updateConnectionStatus "offline" w.

(** [cleanup] (lines 590-603), the handler of [beforeunload]. *)
Definition cleanup (w : world) : world :=
  let w1 := stopHeartbeat w in
  let w2 := stopPollingFallback w1 in
  let w3 :=
    match websocket (this w2) with
    | Some s => ws_close s (CloseWith 1000 "Page unload") w2
    | None => w2
    end in
  let w4 :=
    match updateTimer (this w3) with
    | Some h => clearTimer h w3
    | None => w3
    end in
  upd_this (set_listeners ∅) w4.

(** *** Construction *)

(** [new OperatorOSRealTime(options)] in a page [pg] whose [localStorage]
    holds [stored]: the field initialisers, then [init()], whose
    [setupEventListeners] wires the page events of [step] below. *)
Definition new_client (opts : client_options) (pg : page_env)
    (stored : gmap string (list jsval)) : world :=
  startPollingFallback
    {| this := {| options := opts;
                  websocket := None;
                  isConnected := false;
                  reconnectAttempts := 0;
                  lastHeartbeat := None;
                  heartbeatTimer := None;
                  updateQueue := [];
                  updateTimer := None;
                  listeners := ∅;
                  pollingInterval := None |};
       env := {| page := pg;
                 timers := ∅;
                 nextTimer := 1%positive;
                 sockets := ∅;
                 nextSocket := 1%positive;
                 localStorage := stored;
                 clock := 0;
                 inflight := 0%nat;
                 indicator := "";
                 trace := [] |} |}.

(** ** The event loop *)

Inductive event :=
| CallConnect                               (* initializeRealTimeUpdates *)
| CallOn (name : string) (cb : callback)    (* subscribeToUpdates *)
| CallOff (name : string) (cb : callback)   (* unsubscribeFromUpdates *)
| CallQueueUpdate (u : update_fn)
| CallSend (data : jsval)
| CallClearNotifications
| SocketOpens (s : positive)
| SocketMessage (s : positive) (f : frame)
| SocketErrors (s : positive)
| SocketCloses (s : positive) (code : Z)
| TimerFires (h : positive)
| FetchSettles (r : fetch_result)
| VisibilityChanges (hidden : bool)
| NetworkOnline
| NetworkOffline
| BeforeUnload
| TimePasses (ms : Z).

Definition runTimer (cb : timer_callback) : M :=
  match cb with
  | ConnectionTimeout => connectionTimeout
  | ReconnectAttempt => lift reconnectTick
  | HeartbeatPing => heartbeatTick
  | FlushQueue => lift processUpdateQueue
  | PollMetrics => lift pollTick
  end.

(** One task of the event loop, run to completion.  An event that the
    browser cannot deliver in the current state (a timer that is not
    pending, a socket event in the wrong ready state) leaves the world as it
    is; an exception that escapes a task is reported by the browser and the
    mutations made before it stay. *)
Definition step (e : event) (w : world) : world :=
  match e with
  | CallConnect => connect w
  | CallOn name cb => snd (on name cb w)
  | CallOff name cb => snd (off name cb w)
  | CallQueueUpdate u => queueUpdate u w
  | CallSend data => snd (send data w)
  | CallClearNotifications => clearNotifications w
  | SocketOpens s =>
      match readyStateOf s w with
      | Some CONNECTING => handleWebSocketOpen (set_ready s OPEN w)
      | _ => w
      end
  | SocketMessage s f =>
      match readyStateOf s w with
      | Some OPEN => handleWebSocketMessage f w
      | _ => w
      end
  | SocketErrors s =>
      match readyStateOf s w with
      | Some CLOSED | None => w
      | Some _ => handleWebSocketError w
      end
  | SocketCloses s code =>
      match readyStateOf s w with
      | Some CLOSED | None => w
      | Some _ => handleWebSocketClose code (set_ready s CLOSED w)
      end
  | TimerFires h =>
      match timers (env w) !! h with
      | Some t =>
          snd (runTimer (on_fire t) (if repeats t then w else clearTimer h w))
      | None => w
      end
  | FetchSettles r =>
      match inflight (env w) with
      | O => w
      | S n => pollSettled r (upd_env (set_inflight n) w)
      end
  | VisibilityChanges hidden =>
      snd ((if hidden then handlePageHidden else handlePageVisible) w)
  | NetworkOnline => handleNetworkOnline w
  | NetworkOffline => handleNetworkOffline w
  | BeforeUnload => cleanup w
  | TimePasses ms => upd_env (fun b => set_clock (clock b + Z.abs ms) b) w
  end.

Definition run (es : list event) (w : world) : world :=
  foldl (fun w e => step e w) w es.

(** The worlds a client can be in: constructed, then any events. *)
Inductive reachable : world -> Prop :=
| reach_new opts pg stored : reachable (new_client opts pg stored)
| reach_step e w : reachable w -> reachable (step e w).

(** ** Observations read off a world *)

#[global] Instance timer_callback_eq_dec : EqDecision timer_callback.
Proof. solve_decision. Defined.

#[global] Instance readyState_eq_dec : EqDecision readyState.
Proof. solve_decision. Defined.

(** The handles of the pending timers whose callback is [cb]. *)
Definition pending (cb : timer_callback) (w : world) : list positive :=
  (map_to_list (filter (fun ht => on_fire ht.2 = cb) (timers (env w)))).*1.

Definition deliveries (t : list obs) : list (string * nat * jsval) :=
  omap (fun o => match o with
                 | Delivered name cb data => Some (name, cb, data)
                 | _ => None
                 end) t.

Definition invocations (t : list obs) : list update_fn :=
  omap (fun o => match o with
                 | Invoked u => Some u
                 | _ => None
                 end) t.

Definition flushes (t : list obs) : nat :=
  length (omap (fun o => match o with
                         | FlushStarted => Some tt
                         | _ => None
                         end) t).

Definition frames_sent (t : list obs) : list (positive * jsval) :=
  omap (fun o => match o with
                 | Sent s msg => Some (s, msg)
                 | _ => None
                 end) t.

(** The client is connected: it saw its socket open and the socket still
    is. *)
Definition connected (w : world) : bool :=
  isConnected (this w) && socketIsOpen w.

(** A page with a dashboard whose refresh throws on a missing payload, as
    [updateMetrics] does when it reads [data.agent_stats]. *)
Definition sample_page : page_env :=
  {| dashboard := true;
     dashboardThrows := nullish;
     toastThrows := false;
     pathname := "/dashboard";
     querySelectorAll := fun _ => Some [];
     featherThrows := false;
     webSocketBlocked := false |}.

(** The push channel is open. *)
Definition channel_open (w : world) : bool := socketIsOpen w.

(** The polling interval of [startPollingFallback] is running. *)
Definition polling_active (w : world) : bool :=
  bool_decide (pending PollMetrics w ≠ []).

(** What one [emit] adds to the trace, callback by callback. *)
Definition emit_obs (event : string) (data : jsval) (cbs : list callback)
  : list obs :=
  flat_map (fun cb =>
    Delivered event (cb_id cb) data ::
    if cb_throws cb data
    then [ConsoleError ("Error in event listener for " ++ event ++ ":")]
    else []) cbs.

(** The entries of a queue that one flush calls: the functions up to and
    including the first one that throws. *)
Fixpoint invoked_prefix (pg : page_env) (q : list update_fn) : list update_fn :=
  match q with
  | [] => []
  | u :: q' =>
      if is_function u then
        u :: (if update_throws pg u then [] else invoked_prefix pg q')
      else invoked_prefix pg q'
  end.

(** The fields that the transports and timers of a client depend on. *)
Definition core (w : world) :=
  (websocket (this w), isConnected (this w), heartbeatTimer (this w),
   updateQueue (this w), updateTimer (this w), pollingInterval (this w),
   timers (env w), nextTimer (env w), sockets (env w)).

(** Well-formed worlds: handles are fresh, every tracked handle names a
    timer of its own kind, every flush timer is the tracked one, and a
    connected client has a socket. *)
Record wf (w : world) : Prop := {
  wf_fresh : forall h t, timers (env w) !! h = Some t -> (h < nextTimer (env w))%positive;
  wf_heartbeat : forall h, heartbeatTimer (this w) = Some h ->
    exists t, timers (env w) !! h = Some t /\ on_fire t = HeartbeatPing /\ repeats t = true;
  wf_polling : forall h, pollingInterval (this w) = Some h ->
    exists t, timers (env w) !! h = Some t /\ on_fire t = PollMetrics /\ repeats t = true;
  wf_update : forall h, updateTimer (this w) = Some h ->
    (h < nextTimer (env w))%positive /\
    forall t, timers (env w) !! h = Some t -> on_fire t = FlushQueue /\ repeats t = false;
  wf_flush : forall h t, timers (env w) !! h = Some t -> on_fire t = FlushQueue ->
    updateTimer (this w) = Some h;
  wf_queue : updateTimer (this w) = None -> updateQueue (this w) = [];
  wf_connected : isConnected (this w) = true -> is_Some (websocket (this w));
  wf_sockets : forall s k, sockets (env w) !! s = Some k -> is_Some (websocket (this w))
}.

(** The worlds of a client that has not been torn down. *)
Inductive live : world -> Prop :=
| live_new opts pg stored : live (new_client opts pg stored)
| live_step e w : live w -> e <> BeforeUnload -> live (step e w).

(** The deliveries of one event type. *)
Definition deliveries_for (name : string) (t : list obs)
  : list (string * nat * jsval) :=
  List.filter (fun d => String.eqb d.1.1 name) (deliveries t).

(** The world after a burst of enqueues that starts with no timer tracked:
    one timer, allocated by the first enqueue, and the whole burst in the
    buffer. *)
Definition after_burst (us : list update_fn) (w : world) : world :=
  upd_this (fun c => set_updateTimer (Some (nextTimer (env w)))
                       (set_updateQueue (updateQueue c ++ us) c))
    (setTimer FlushQueue (inject_Z (updateThrottle (options (this w)))) false w).2.

(** One failed connection attempt.  The attempt is made by the pending
    backoff timer when there is one and by a call of [connect()] otherwise;
    the socket it creates then closes with the abnormal-closure code. *)
Definition attempt_connection (w : world) : world :=
  match pending ReconnectAttempt w with
  | h :: _ => step (TimerFires h) w
  | [] => connect w
  end.

Definition failed_attempt (w : world) : world :=
  step (SocketCloses (nextSocket (env w)) 1006) (attempt_connection w).

(** ** The claims of the specification, as predicates on worlds *)

(** At most one transport is active: the push channel is not open while a
    polling timer runs. *)
Definition at_most_one_transport (w : world) : Prop :=
  ~ (channel_open w = true /\ polling_active w = true).

(** Teardown with a backoff, a heartbeat and a flush timer outstanding
    cancels all three, closes the channel cleanly and leaves no timer whose
    callback could still fire. *)
Definition teardown_cancels_everything (w : world) : Prop :=
  pending ReconnectAttempt w <> [] ->
  pending HeartbeatPing w <> [] ->
  pending FlushQueue w <> [] ->
  let w' := cleanup w in
  pending ReconnectAttempt w' = [] /\
  pending HeartbeatPing w' = [] /\
  pending FlushQueue w' = [] /\
  (forall s, websocket (this w) = Some s ->
     closing <$> sockets (env w') !! s = Some (CloseWith 1000 "Page unload")) /\
  (forall h, timers (env w') !! h = None).

(** The flush of a burst calls every buffered action, in enqueue order. *)
Definition flush_invokes_every_action (w : world) (us : list update_fn) : Prop :=
  let w2 := step (TimerFires (nextTimer (env w)))
              (foldl (fun w u => queueUpdate u w) w us) in
  invocations (trace (env w2)) = (invocations (trace (env w)) ++ us)%list.

(** Every subscriber observes the same deliveries for a pushed
    [metrics_update] frame and for a polling pull with the same payload. *)
Definition poll_indistinguishable_from_push (w : world) (data : jsval) : Prop :=
  deliveries (trace (env (handleWebSocketMessage (Parsed data) w))) =
  deliveries (trace (env (pollSettled (FetchJson (field "payload" data)) w))).

(** After as many consecutive failed connection attempts as the configured
    maximum, the client shows the polling state and has no retry pending. *)
Definition polling_after_max_failures (w : world) : Prop :=
  let n := Z.to_nat (maxReconnectAttempts (options (this w))) in
  let w' := Nat.iter n failed_attempt w in
  indicator (env w') = "polling" /\ pending ReconnectAttempt w' = [].

(** ** Sample data for concrete runs *)

Definition sample_world : world := new_client default_options sample_page ∅.

Definition subscriber (id : nat) (throws : bool) : callback :=
  {| cb_id := id; cb_throws := fun _ => throws |}.

Definition metrics_frame (payload : jsval) : jsval :=
  JObj [("type", JStr "metrics_update"); ("payload", payload)].

Definition sample_metrics : jsval :=
  JObj [("agent_stats", JObj [("active", JNum 3)])].

(** A connection drops and is re-established by the [online] event before
    the backoff timer has fired; then an update is queued. *)
Definition busy_world : world :=
  run [CallConnect; SocketOpens 1; SocketCloses 1 1006; NetworkOnline;
       SocketOpens 2; CallQueueUpdate (External 7 false)] sample_world.

(** Three subscribers of [metrics_update]; the second one throws. *)
Definition subscribed_world : world :=
  run [CallOn "metrics_update" (subscriber 1 false);
       CallOn "metrics_update" (subscriber 2 true);
       CallOn "metrics_update" (subscriber 3 false)] sample_world.

(** Three functions enqueued in one window; the second one throws. *)
Definition queued_world : world :=
  foldl (fun w u => queueUpdate u w) sample_world
    [External 1 false; External 2 true; External 3 false].

Definition sample_notifications : list jsval :=
  map (fun n => JNum (Z.of_nat n)) (seq 1 51).

(** ** Further observations, used by the properties beyond the claims *)

(** The connection side of a world: what the connection manager and the
    heartbeat own. *)
Definition connection (w : world) :=
  (websocket (this w), isConnected (this w), reconnectAttempts (this w),
   lastHeartbeat (this w), heartbeatTimer (this w), pollingInterval (this w),
   sockets (env w), indicator (env w)).

(** The frame types with a [case] of their own in [processRealTimeUpdate]
    that does something. *)
Definition handled_type (t : jsval) : bool :=
  str_is t "metrics_update" || str_is t "agent_status_change" ||
  str_is t "task_status_change" || str_is t "system_alert" ||
  str_is t "pool_scaling".

(** The frame types whose handler destructures the payload. *)
Definition destructuring_type (t : jsval) : bool :=
  str_is t "agent_status_change" || str_is t "task_status_change" ||
  str_is t "system_alert" || str_is t "pool_scaling".

(** The notification object that [showNotification] builds at time [now]. *)
Definition notification_of (now : Z) (message type : string)
    (opts : list (string * jsval)) : jsval :=
  JObj (obj_spread [("id", JNum now); ("message", JStr message);
                    ("type", JStr type); ("timestamp", JNum now)] opts).

(** The dashboard, when the page has one, shows its toasts. *)
Definition toasts_shown (w : world) : bool :=
  negb (dashboard (page (env w)) && toastThrows (page (env w))).

(** From [w] to [w'] one notification was recorded, at the head of the
    store.  The entry is described by its string and number properties,
    which are the ones that its JSON text keeps as they were;
    [duration] is [JUndef] for a notification without one. *)
Definition recorded (w w' : world) (message type icon : string)
    (duration : jsval) : Prop :=
  exists entry,
    getStoredNotifications w' = take 50 (entry :: getStoredNotifications w) /\
    field "id" entry = JNum (clock (env w)) /\
    field "message" entry = JStr message /\
    field "type" entry = JStr type /\
    field "icon" entry = JStr icon /\
    field "duration" entry = duration.

(** From [w] to [w'] the subscribers of [notification] were called with
    the notification object [n], and then the subscribers of [event] with
    [data]. *)
Definition published (w w' : world) (n : jsval) (event : string) (data : jsval)
  : Prop :=
  deliveries (trace (env w')) =
    (deliveries (trace (env w)) ++
     map (fun cb => ("notification", cb_id cb, n))
         (default [] (listeners (this w) !! "notification")) ++
     map (fun cb => (event, cb_id cb, data))
         (default [] (listeners (this w) !! event)))%list.

(** From [w] to [w'] nothing was recorded, and only the subscribers of
    [event] were called. *)
Definition only_published (w w' : world) (event : string) (data : jsval) : Prop :=
  getStoredNotifications w' = getStoredNotifications w /\
  deliveries (trace (env w')) =
    (deliveries (trace (env w)) ++
     map (fun cb => (event, cb_id cb, data))
         (default [] (listeners (this w) !! event)))%list.

(** Sample frames for the handlers. *)
Definition critical_alert : jsval :=
  JObj [("level", JStr "critical"); ("message", JStr "disk full")].

Definition failed_agent : jsval :=
  JObj [("agent_id", JStr "a1"); ("old_status", JStr "busy");
        ("new_status", JStr "failed")].


Definition pool_scaled_up : jsval :=
  JObj [("pool_name", JStr "healthcare"); ("action", JStr "scaled up");
        ("agent_count", JNum 5)].

(** A page whose document shows agent [a1] with a status badge. *)
Definition agent_page : page_env :=
  {| dashboard := true;
     dashboardThrows := nullish;
     toastThrows := false;
     pathname := "/dashboard";
     querySelectorAll := fun selector =>
       if String.eqb selector (attr_selector "data-agent-id" (JStr "a1"))
       then Some [{| agentStatusBadge := true; taskStatusBadge := false |}]
       else Some [];
     featherThrows := false;
     webSocketBlocked := false |}.

(** A client whose store holds entries of another key and a full log. *)
Definition stocked_world : world :=
  new_client default_options sample_page
    (<["theme" := [JStr "dark"]]>
       (<[notifications_key := map (fun n => JNum (Z.of_nat n)) (seq 1 50)]> ∅)).

(** Events other than a subscription. *)
Definition not_subscription (e : event) : Prop :=
  match e with
  | CallOn _ _ => False
  | _ => True
  end.



(** Two connection attempts overlap: the page becomes visible while the
    first socket is still connecting, then the first socket opens. *)
Definition overlapping_world : world :=
  run [CallConnect; VisibilityChanges false; SocketOpens 1] sample_world.

(** Observations that are neither a delivery to a subscriber, nor a frame
    sent, nor a queued action run. *)
Definition local_observation (o : obs) : Prop :=
  match o with
  | Toast _ _ | NotificationCount _ | ConsoleError _ => True
  | _ => False
  end.

(** The callbacks installed with [setInterval]. *)
Definition interval_callback (cb : timer_callback) : bool :=
  match cb with
  | HeartbeatPing | PollMetrics => true
  | _ => false
  end.

(** Every timer repeats exactly when it was installed with [setInterval],
    and a connection timeout is only pending once [this.websocket] has been
    assigned. *)
Record timers_ok (w : world) : Prop := {
  ok_repeats : forall h t, timers (env w) !! h = Some t ->
    repeats t = interval_callback (on_fire t);
  ok_timeout : forall h t, timers (env w) !! h = Some t ->
    on_fire t = ConnectionTimeout -> is_Some (websocket (this w))
}.

(** The handle in [this.updateTimer] names a pending timer. *)
Definition flush_scheduled (w : world) : Prop :=
  forall h, updateTimer (this w) = Some h -> is_Some (timers (env w) !! h).

(** ** The dashboard methods that the queued actions call ([static/js/dashboard.js]) *)

(** [this.config] of [OperatorOSDashboard]. *)
Record dashboard_config := {
  updateIntervalMs : Z;
  chartUpdateMs : Z;
  animationDuration : Z;
  maxRetries : Z;
  retryDelay : Z
}.

Definition default_config : dashboard_config :=
  {| updateIntervalMs := 30000;
     chartUpdateMs := 60000;
     animationDuration := 300;
     maxRetries := 3;
     retryDelay := 1000 |}.

(** How one [fetch] settles, and how [fetchWithRetry] does. *)
Inductive fetch_outcome :=
| Responded (ok : bool) (body : jsval)
| Rejected (error : string).

(** [this.config.retryDelay * Math.pow(2, retries)] *)
Definition backoff (cfg : dashboard_config) (retries : Z) : Q :=
  (inject_Z (retryDelay cfg) * Qpower (2 # 1) retries)%Q.

(** [fetchWithRetry(url, options, retries)] (lines 517-540).  [net r] is how
    the request made with retry count [r] settles.  The result is how the
    returned promise settles, with the delays awaited on the way.  The
    recursive call is returned without [await], so its rejection is not
    caught again by the caller's [catch].  [fuel] bounds the depth of the
    recursion; [None] means that it ran out. *)
Fixpoint fetchWithRetry (fuel : nat) (cfg : dashboard_config)
    (net : Z -> fetch_outcome) (retries : Z)
  : option (fetch_outcome * list Q) :=
  match fuel with
  | O => None
  | S fuel' =>
      let again :=
        match fetchWithRetry fuel' cfg net (retries + 1) with
        | Some (r, waits) => Some (r, backoff cfg retries :: waits)
        | None => None
        end in
      match net retries with
      | Responded ok body =>
          if negb ok && (retries <? maxRetries cfg) then again
          else Some (Responded ok body, [])
      | Rejected error =>
          if retries <? maxRetries cfg then again
          else Some (Rejected error, [])
      end
  end.

(** A request that makes [fetchWithRetry] try again, if retries are left. *)
Definition failed (o : fetch_outcome) : bool :=
  match o with
  | Responded ok _ => negb ok
  | Rejected _ => true
  end.

















Definition always_rejected (retries : Z) : fetch_outcome := Rejected "offline".

(** ** Basic facts about the trace *)

Open Scope list_scope.

Lemma observe_all_app l1 l2 w :
  observe_all l2 (observe_all l1 w) = observe_all (l1 ++ l2) w.
Proof.
  unfold observe_all, upd_env, set_trace; simpl.
  by rewrite <- app_assoc.
Qed.

Lemma observe_all_nil w : observe_all [] w = w.
Proof.
  destruct w as [c b]; destruct b.
  unfold observe_all, upd_env, set_trace; simpl.
  by rewrite app_nil_r.
Qed.

Lemma core_observe_all l w : core (observe_all l w) = core w.
Proof. reflexivity. Qed.

Lemma trace_observe_all l w :
  trace (env (observe_all l w)) = (trace (env w) ++ l)%list.
Proof. reflexivity. Qed.

Lemma foldl_deliver event data cbs w :
  foldl (deliver event data) w cbs = observe_all (emit_obs event data cbs) w.
Proof.
  revert w; induction cbs as [|cb cbs IH]; intros w; simpl.
  - by rewrite observe_all_nil.
  - rewrite IH. unfold deliver, observe.
    destruct (cb_throws cb data); rewrite ?observe_all_app; reflexivity.
Qed.

Lemma emit_eq event data w :
  emit event data w =
  observe_all (emit_obs event data (default [] (listeners (this w) !! event))) w.
Proof.
  unfold emit. destruct (listeners (this w) !! event) as [cbs|]; simpl.
  - apply foldl_deliver.
  - by rewrite observe_all_nil.
Qed.

Lemma forEachUpdate_eq q w :
  forEachUpdate q w =
  (if existsb (update_throws (page (env w))) q then Thrown "Error" else Normal,
   observe_all (Invoked <$> invoked_prefix (page (env w)) q) w).
Proof.
  revert w; induction q as [|u q IH]; intros w; simpl.
  - unfold ret. by rewrite observe_all_nil.
  - unfold andThen. destruct u; simpl; unfold invoke, ret; simpl;
      try (destruct (dashboard _ && dashboardThrows _ _)); simpl;
      try (destruct throws); simpl;
      rewrite ?IH; simpl; unfold observe; rewrite ?observe_all_app;
      reflexivity.
Qed.

Lemma deliveries_app a b : deliveries (a ++ b) = (deliveries a ++ deliveries b)%list.
Proof. apply omap_app. Qed.

Lemma invocations_app a b :
  invocations (a ++ b) = (invocations a ++ invocations b)%list.
Proof. apply omap_app. Qed.

Lemma flushes_app a b : flushes (a ++ b) = (flushes a + flushes b)%nat.
Proof. unfold flushes. by rewrite omap_app, length_app. Qed.

Lemma deliveries_emit_obs event data cbs :
  deliveries (emit_obs event data cbs) =
  map (fun cb => (event, cb_id cb, data)) cbs.
Proof.
  induction cbs as [|cb cbs IH]; [done|].
  simpl. destruct (cb_throws cb data); simpl; by rewrite IH.
Qed.

Lemma invocations_Invoked l : invocations (Invoked <$> l) = l.
Proof. induction l as [|u l IH]; [done|]. csimpl. by rewrite IH. Qed.

Lemma flushes_Invoked l : flushes (Invoked <$> l) = 0%nat.
Proof. induction l as [|u l IH]; [done|]. exact IH. Qed.

(** ** Event dispatcher *)

(** C8.  Whatever callbacks are registered for an event and whatever is
    published, a callback that throws is caught and logged inside [emit],
    and every callback registered after it is still called with the same
    payload in the same [emit]: the calls made are exactly the registered
    callbacks, in registration order. *)
Theorem emit_isolates_throwing_callback
    (w : world) (event : string) (data : jsval)
    (before after : list callback) (bad : callback) :
  listeners (this w) !! event = Some (before ++ bad :: after) ->
  cb_throws bad data = true ->
  let w' := emit event data w in
  deliveries (trace (env w')) =
    (deliveries (trace (env w)) ++
     map (fun cb => (event, cb_id cb, data)) (before ++ bad :: after))%list /\
  (forall cb, cb ∈ after -> (event, cb_id cb, data) ∈ deliveries (trace (env w'))) /\
  ConsoleError ("Error in event listener for " ++ event ++ ":")%string ∈ trace (env w') /\
  core w' = core w.
Proof.
  intros Hl Hbad w'. subst w'. rewrite emit_eq, Hl. simpl default.
  rewrite trace_observe_all, deliveries_app, deliveries_emit_obs.
  split; [done|]. split; [|split; [|done]].
  - intros cb Hcb. apply elem_of_app. right.
    apply (list_elem_of_fmap_2 (fun cb => (event, cb_id cb, data))).
    apply elem_of_app. right. by apply list_elem_of_further.
  - apply elem_of_app. right. unfold emit_obs.
    apply list_elem_of_In, in_flat_map. exists bad. split.
    + apply list_elem_of_In, elem_of_app. right. apply list_elem_of_here.
    + rewrite Hbad. right. by left.
Qed.

(** ** Notification store *)

Lemma stored_after_store n w :
  getStoredNotifications (storeNotification n w) =
  take 50 (n :: getStoredNotifications w).
Proof.
  unfold storeNotification, getStoredNotifications at 1. simpl.
  rewrite lookup_insert_eq. simpl default.
  destruct (50 <? S (length (getStoredNotifications w)))%nat eqn:E; [done|].
  apply Nat.ltb_ge in E.
  change (n :: getStoredNotifications w = take 50 (n :: getStoredNotifications w)).
  symmetry. apply take_ge. simpl. lia.
Qed.

Lemma stored_after_all ns w :
  ns <> [] ->
  getStoredNotifications (foldl (fun w n => storeNotification n w) w ns) =
  take 50 (rev ns ++ getStoredNotifications w).
Proof.
  induction ns as [|n ns IH] using rev_ind; [done|]. intros _.
  rewrite foldl_snoc, stored_after_store, rev_unit.
  destruct ns as [|m ns']; [done|].
  rewrite IH by done.
  change (take 50 (n :: ?l)) with (n :: take 49 l).
  by rewrite take_take.
Qed.

(** C5.  Whatever the store held before, after 51 notifications were
    recorded it holds exactly the newest 50 of them, newest first; the
    oldest of the 51 was dropped from the tail; and no call of
    [storeNotification] ever leaves more than 50 entries. *)
Theorem notification_store_capped (w : world) (ns : list jsval) :
  length ns = 51%nat ->
  let w' := foldl (fun w n => storeNotification n w) w ns in
  getStoredNotifications w' = rev (drop 1 ns) /\
  length (getStoredNotifications w') = 50%nat /\
  (forall oldest, head ns = Some oldest -> oldest ∉ drop 1 ns ->
     oldest ∉ getStoredNotifications w') /\
  (forall n w0,
     (length (getStoredNotifications (storeNotification n w0)) <= 50)%nat).
Proof.
  intros Hlen w'. subst w'.
  assert (Hne : ns <> []) by (intros ->; discriminate).
  rewrite (stored_after_all _ _ Hne).
  destruct ns as [|oldest rest]; [done|]. simpl in Hlen.
  assert (Hrest : length (rev rest) = 50%nat) by (rewrite length_rev; lia).
  assert (Heq : take 50 (rev (oldest :: rest) ++ getStoredNotifications w) = rev rest).
  { simpl rev. rewrite <- app_assoc, <- Hrest. apply take_app_length. }
  rewrite Heq. simpl drop. repeat split.
  - done.
  - intros o [= <-] Hnot Hin. apply Hnot.
    by apply list_elem_of_In, in_rev, list_elem_of_In.
  - intros n w0. rewrite stored_after_store. apply firstn_le_length.
Qed.

(** ** Reconnection backoff *)

(** C6.  A reconnect scheduling step first increments the attempt counter
    and then schedules one retry whose delay is
    [reconnectInterval * 1.5 ^ (attempt - 1)], with [attempt] the counter
    after the increment; no other timer is touched.  This is stated where
    the double arithmetic of the code is exact, that is, where the power
    and the product are doubles. *)
Theorem scheduleReconnect_delay (w : world) :
  let w' := scheduleReconnect w in
  let attempt := reconnectAttempts (this w') in
  exact_backoff (reconnectInterval (options (this w))) attempt = true ->
  attempt = reconnectAttempts (this w) + 1 /\
  timers (env w') !! nextTimer (env w) =
    Some {| on_fire := ReconnectAttempt;
            delay := (inject_Z (reconnectInterval (options (this w))) *
                      Qpower (3 # 2) (attempt - 1))%Q;
            repeats := false |} /\
  (forall h, h <> nextTimer (env w) ->
     timers (env w') !! h = timers (env w) !! h).
Proof.
  intros w' attempt _. subst w' attempt.
  unfold scheduleReconnect, setTimer; simpl. repeat split.
  - apply lookup_insert_eq.
  - intros h Hh. by apply lookup_insert_ne.
Qed.

(** ** Update coalescing queue *)

Lemma invoked_prefix_throw pg before bad after :
  existsb (update_throws pg) before = false ->
  update_throws pg bad = true ->
  invoked_prefix pg (before ++ bad :: after) =
  (List.filter is_function before ++ [bad])%list.
Proof.
  intros Hb Hbad. induction before as [|u before IH]; simpl in *.
  - rewrite Hbad. by destruct bad.
  - apply orb_false_iff in Hb as [Hu Hb]. rewrite Hu, (IH Hb).
    by destruct (is_function u).
Qed.

Lemma invoked_prefix_no_throw pg q :
  existsb (update_throws pg) q = false ->
  invoked_prefix pg q = List.filter is_function q.
Proof.
  induction q as [|u q IH]; simpl; [done|]. intros Hq.
  apply orb_false_iff in Hq as [Hu Hq]. rewrite Hu, (IH Hq).
  by destruct (is_function u).
Qed.

Lemma processUpdateQueue_eq w :
  processUpdateQueue w =
  upd_this (fun c => set_updateTimer None (set_updateQueue [] c))
    (observe_all
       (FlushStarted ::
        (Invoked <$> invoked_prefix (page (env w)) (updateQueue (this w))) ++
        (if existsb (update_throws (page (env w))) (updateQueue (this w))
         then [ConsoleError "Error processing update queue:"] else []))%list
       w).
Proof.
  unfold processUpdateQueue, try_log. rewrite forEachUpdate_eq. simpl.
  destruct (existsb _ _); unfold observe; rewrite ?observe_all_app;
    simpl; rewrite ?app_nil_r; reflexivity.
Qed.

(** C10.  When a buffered action throws during a flush, the actions
    enqueued after it are not called in that flush; the buffer is emptied
    and the timer handle released all the same, and the world after the
    flush is the one a buffer without the skipped actions would have left,
    so nothing later can call them. *)
Theorem flush_aborts_at_throwing_action
    (w : world) (before after : list update_fn) (bad : update_fn) :
  updateQueue (this w) = (before ++ bad :: after)%list ->
  existsb (update_throws (page (env w))) before = false ->
  update_throws (page (env w)) bad = true ->
  let w' := processUpdateQueue w in
  invocations (trace (env w')) =
    (invocations (trace (env w)) ++ List.filter is_function before ++ [bad])%list /\
  updateQueue (this w') = [] /\
  updateTimer (this w') = None /\
  w' = processUpdateQueue (upd_this (set_updateQueue (before ++ [bad])%list) w).
Proof.
  intros Hq Hb Hbad w'. subst w'. rewrite !processUpdateQueue_eq. simpl.
  rewrite Hq.
  rewrite (invoked_prefix_throw _ _ _ after Hb Hbad).
  rewrite (invoked_prefix_throw _ _ _ [] Hb Hbad).
  rewrite !existsb_app. simpl. rewrite Hb, Hbad. simpl.
  repeat split.
  rewrite invocations_app. f_equal. simpl.
  rewrite invocations_app, invocations_Invoked. simpl. by rewrite app_nil_r.
Qed.

(** ** Well-formedness is an invariant of the event loop *)

Lemma wf_ext w w' : core w' = core w -> wf w -> wf w'.
Proof.
  unfold core. intros [= Hws Hc Hhb Hq Hu Hp Ht Hn Hs] [].
  constructor; rewrite ?Hws, ?Hc, ?Hhb, ?Hq, ?Hu, ?Hp, ?Ht, ?Hn, ?Hs; done.
Qed.

Lemma core_emit event data w : core (emit event data w) = core w.
Proof. by rewrite emit_eq. Qed.

Lemma core_storeNotification n w : core (storeNotification n w) = core w.
Proof. reflexivity. Qed.

Lemma core_showNotification m t o w :
  core (showNotification m t o w).2 = core w.
Proof.
  unfold showNotification.
  destruct (dashboard _ && toastThrows _); [done|]. simpl.
  rewrite core_emit, core_storeNotification. by destruct (dashboard _).
Qed.

Lemma andThen_normal (a b : M) w w' : a w = (Normal, w') -> (a ;; b) w = b w'.
Proof. unfold andThen. by intros ->. Qed.

Lemma andThen_thrown (a b : M) w e w' :
  a w = (Thrown e, w') -> (a ;; b) w = (Thrown e, w').
Proof. unfold andThen. by intros ->. Qed.

Lemma keeps_ret P : keeps P ret.
Proof. by intros w. Qed.

Lemma keeps_throw P e : keeps P (throw e).
Proof. by intros w. Qed.

Lemma keeps_lift P f : (forall w, P w -> P (f w)) -> keeps P (lift f).
Proof. intros Hf w. apply Hf. Qed.

Lemma keeps_andThen P a b : keeps P a -> keeps P b -> keeps P (a ;; b).
Proof.
  intros Ha Hb w H. unfold andThen. specialize (Ha w H).
  destruct (a w) as [[|e] w']; [by apply Hb|done].
Qed.

Lemma keeps_destructure P payload a : keeps P a -> keeps P (destructure payload a).
Proof. intros Ha. unfold destructure. destruct (nullish payload); [apply keeps_throw|done]. Qed.

Lemma updateAgentStatusInUI_world agentId newStatus w :
  (updateAgentStatusInUI agentId newStatus w).2 = w.
Proof. unfold updateAgentStatusInUI. by repeat case_match. Qed.

Lemma updateTaskStatusInUI_world taskId newStatus w :
  (updateTaskStatusInUI taskId newStatus w).2 = w.
Proof. unfold updateTaskStatusInUI. by repeat case_match. Qed.

Lemma keeps_updateAgentStatusInUI P agentId newStatus :
  keeps P (updateAgentStatusInUI agentId newStatus).
Proof. intros w H. by rewrite updateAgentStatusInUI_world. Qed.

Lemma keeps_updateTaskStatusInUI P taskId newStatus :
  keeps P (updateTaskStatusInUI taskId newStatus).
Proof. intros w H. by rewrite updateTaskStatusInUI_world. Qed.

(** The shape shared by the four handlers that destructure their payload:
    what keeps [P] in [showNotification], [queueUpdate] and [emit] keeps it
    in the handler. *)
Lemma keeps_handlers P :
  (forall m t o, keeps P (showNotification m t o)) ->
  (forall u w, P w -> P (queueUpdate u w)) ->
  (forall event data w, P w -> P (emit event data w)) ->
  forall p,
    keeps P (handleAgentStatusChange p) /\
    keeps P (handleTaskStatusChange p) /\
    keeps P (handleSystemAlert p) /\
    keeps P (handlePoolScaling p).
Proof.
  intros Hshow Hqueue Hemit p. repeat split.
  - apply keeps_destructure, keeps_andThen; [apply keeps_updateAgentStatusInUI|].
    apply keeps_andThen; [|apply keeps_lift; auto].
    repeat case_match; auto using keeps_ret.
  - apply keeps_destructure, keeps_andThen; [apply keeps_updateTaskStatusInUI|].
    apply keeps_andThen; [|apply keeps_lift; auto].
    intros w H. repeat case_match; try done; by apply Hshow.
  - apply keeps_destructure, keeps_andThen; [apply Hshow|apply keeps_lift; auto].
  - apply keeps_destructure, keeps_andThen; [apply Hshow|].
    apply keeps_andThen; apply keeps_lift; auto.
Qed.

Lemma core_whenOpen body w :
  (forall s w0, core (body s w0) = core w0) -> core (whenOpen body w).2 = core w.
Proof.
  intros Hb. unfold whenOpen.
  destruct (isConnected _); [|done].
  destruct (websocket _) as [s|]; [|done].
  destruct (readyStateOf s w) as [[]|]; simpl; auto.
Qed.

Lemma core_send data w : core (send data w).2 = core w.
Proof. by apply core_whenOpen. Qed.

Lemma core_heartbeatTick w : core (heartbeatTick w).2 = core w.
Proof. by apply core_whenOpen. Qed.

Lemma core_on event cb w : core (on event cb w).2 = core w.
Proof. unfold on. by destruct (inherited event). Qed.

Lemma core_off event cb w : core (off event cb w).2 = core w.
Proof.
  unfold off. destruct (inherited event); [done|]. simpl.
  by destruct (listeners (this w) !! event).
Qed.

Ltac wf_fields H :=
  destruct H as [Hfresh Hheart Hpoll Hupd Hflush Hqueue Hconn Hsock].

Ltac lookup_cases :=
  repeat match goal with
  | H : <[_:=_]> _ !! _ = Some _ |- _ =>
      apply lookup_insert_Some in H as [[? ?]|[? H]]; subst
  | H : delete _ _ !! _ = Some _ |- _ =>
      apply lookup_delete_Some in H as [? H]
  end.

Lemma wf_setTimer cb d rep w :
  cb <> FlushQueue -> wf w -> wf (setTimer cb d rep w).2.
Proof.
  intros Hcb H. wf_fields H. constructor; simpl.
  - intros h t Ht. lookup_cases; [lia|]. apply Hfresh in Ht. lia.
  - intros h Hh. destruct (Hheart h Hh) as (t & Ht & ?).
    exists t. split; [|done]. rewrite lookup_insert_ne; [done|].
    apply Hfresh in Ht. lia.
  - intros h Hh. destruct (Hpoll h Hh) as (t & Ht & ?).
    exists t. split; [|done]. rewrite lookup_insert_ne; [done|].
    apply Hfresh in Ht. lia.
  - intros h Hh. destruct (Hupd h Hh) as [Hlt Hk]. split; [lia|].
    intros t Ht. lookup_cases; [lia|]. by apply Hk.
  - intros h t Ht Hk. lookup_cases; [done|]. by eapply Hflush.
  - done.
  - done.
  - done.
Qed.

Lemma wf_clearTimer h t w :
  timers (env w) !! h = Some t -> repeats t = false ->
  on_fire t <> FlushQueue -> wf w -> wf (clearTimer h w).
Proof.
  intros Hh Hrep Hk H. wf_fields H. constructor; simpl.
  - intros h' t' Ht. lookup_cases. by eapply Hfresh.
  - intros h' Hh'. destruct (Hheart h' Hh') as (t' & Ht' & ? & ?).
    exists t'. split; [|done]. rewrite lookup_delete_ne; [done|].
    intros ->. congruence.
  - intros h' Hh'. destruct (Hpoll h' Hh') as (t' & Ht' & ? & ?).
    exists t'. split; [|done]. rewrite lookup_delete_ne; [done|].
    intros ->. congruence.
  - intros h' Hh'. destruct (Hupd h' Hh') as [Hlt Hk']. split; [done|].
    intros t' Ht'. lookup_cases. by apply Hk'.
  - intros h' t' Ht' Hk'. lookup_cases. by eapply Hflush.
  - done.
  - done.
  - done.
Qed.

Lemma wf_queueUpdate u w : wf w -> wf (queueUpdate u w).
Proof.
  intros H. wf_fields H. unfold queueUpdate. simpl.
  destruct (updateTimer (this w)) as [h0|] eqn:Hu.
  - constructor; simpl; try done.
    + by rewrite Hu.
    + by rewrite Hu.
    + by rewrite Hu.
  - constructor; simpl.
    + intros h t Ht. lookup_cases; [lia|]. apply Hfresh in Ht. lia.
    + intros h Hh. destruct (Hheart h Hh) as (t & Ht & ?).
      exists t. split; [|done]. rewrite lookup_insert_ne; [done|].
      apply Hfresh in Ht. lia.
    + intros h Hh. destruct (Hpoll h Hh) as (t & Ht & ?).
      exists t. split; [|done]. rewrite lookup_insert_ne; [done|].
      apply Hfresh in Ht. lia.
    + intros h [= <-]. split; [lia|]. intros t.
      rewrite lookup_insert_eq. by intros [= <-].
    + intros h t Ht Hk. lookup_cases; [done|].
      by specialize (Hflush _ _ Ht Hk).
    + done.
    + done.
    + done.
Qed.

Lemma wf_handleMetricsUpdate p w : wf w -> wf (handleMetricsUpdate p w).
Proof.
  intros H. unfold handleMetricsUpdate.
  eapply wf_ext; [apply core_emit|]. by apply wf_queueUpdate.
Qed.

(** A property of worlds that only depends on [core] and that
    [queueUpdate] keeps is kept by the handling of any inbound frame. *)
Section InboundFrames.
Variable P : world -> Prop.
Hypothesis P_ext : forall w w', core w' = core w -> P w -> P w'.
Hypothesis P_queueUpdate : forall u w, P w -> P (queueUpdate u w).

Lemma handleMetricsUpdate_keeps p w : P w -> P (handleMetricsUpdate p w).
Proof.
  intros H. unfold handleMetricsUpdate.
  eapply P_ext; [apply core_emit|]. by apply P_queueUpdate.
Qed.

Lemma processRealTimeUpdate_keeps data w :
  P w -> P (processRealTimeUpdate data w).2.
Proof.
  revert w. change (keeps P (processRealTimeUpdate data)).
  assert (Hemit : forall event d w, P w -> P (emit event d w)).
  { intros event d w H. eapply P_ext; [apply core_emit|done]. }
  assert (Hshow : forall m t o, keeps P (showNotification m t o)).
  { intros m t o w H. eapply P_ext; [apply core_showNotification|done]. }
  destruct (keeps_handlers P Hshow P_queueUpdate Hemit (field "payload" data))
    as (Hagent & Htask & Halert & Hpool).
  unfold processRealTimeUpdate.
  destruct (nullish data); [apply keeps_throw|].
  apply keeps_andThen; [|apply keeps_lift; auto].
  repeat case_match; auto using keeps_ret.
  apply keeps_lift. intros w. apply handleMetricsUpdate_keeps.
Qed.

Lemma handleWebSocketMessage_keeps f w :
  P w -> P (handleWebSocketMessage f w).
Proof.
  intros H. unfold handleWebSocketMessage, try_log.
  destruct f as [|data].
  - simpl. eapply P_ext; [apply core_observe_all|done].
  - pose proof (processRealTimeUpdate_keeps data w H) as H'.
    destruct (processRealTimeUpdate data w) as [[|e] w']; [done|].
    eapply P_ext; [apply core_observe_all|done].
Qed.
End InboundFrames.

Lemma wf_handleWebSocketMessage f w : wf w -> wf (handleWebSocketMessage f w).
Proof. apply handleWebSocketMessage_keeps; [apply wf_ext|apply wf_queueUpdate]. Qed.

Lemma wf_startHeartbeat w : wf w -> wf (startHeartbeat w).
Proof.
  intros H. wf_fields H. unfold startHeartbeat. constructor; simpl.
  - intros h t Ht. lookup_cases; [lia|]. apply Hfresh in Ht. lia.
  - intros h [= <-]. eexists. by rewrite lookup_insert_eq.
  - intros h Hh. destruct (Hpoll h Hh) as (t & Ht & ?).
    exists t. split; [|done]. rewrite lookup_insert_ne; [done|].
    apply Hfresh in Ht. lia.
  - intros h Hh. destruct (Hupd h Hh) as [Hlt Hk]. split; [lia|].
    intros t Ht. lookup_cases; [lia|]. by apply Hk.
  - intros h t Ht Hk. lookup_cases; [done|]. by eapply Hflush.
  - done.
  - done.
  - done.
Qed.

Lemma wf_startPollingFallback w : wf w -> wf (startPollingFallback w).
Proof.
  intros H. wf_fields H. unfold startPollingFallback. constructor; simpl.
  - intros h t Ht. lookup_cases; [lia|]. apply Hfresh in Ht. lia.
  - intros h Hh. destruct (Hheart h Hh) as (t & Ht & ?).
    exists t. split; [|done]. rewrite lookup_insert_ne; [done|].
    apply Hfresh in Ht. lia.
  - intros h [= <-]. eexists. by rewrite lookup_insert_eq.
  - intros h Hh. destruct (Hupd h Hh) as [Hlt Hk]. split; [lia|].
    intros t Ht. lookup_cases; [lia|]. by apply Hk.
  - intros h t Ht Hk. lookup_cases; [done|]. by eapply Hflush.
  - done.
  - done.
  - done.
Qed.

Lemma wf_stopHeartbeat w : wf w -> wf (stopHeartbeat w).
Proof.
  intros H. unfold stopHeartbeat.
  destruct (heartbeatTimer (this w)) as [h0|] eqn:Hh0; [|done].
  wf_fields H. destruct (Hheart h0 Hh0) as (t0 & Ht0 & Hk0 & _).
  constructor; simpl.
  - intros h t Ht. lookup_cases. by eapply Hfresh.
  - done.
  - intros h Hh. destruct (Hpoll h Hh) as (t & Ht & ? & ?).
    exists t. split; [|done]. rewrite lookup_delete_ne; [done|].
    intros ->. congruence.
  - intros h Hh. destruct (Hupd h Hh) as [Hlt Hk]. split; [done|].
    intros t Ht. lookup_cases. by apply Hk.
  - intros h t Ht Hk. lookup_cases. by eapply Hflush.
  - done.
  - done.
  - done.
Qed.

Lemma wf_stopPollingFallback w : wf w -> wf (stopPollingFallback w).
Proof.
  intros H. unfold stopPollingFallback.
  destruct (pollingInterval (this w)) as [h0|] eqn:Hh0; [|done].
  wf_fields H. destruct (Hpoll h0 Hh0) as (t0 & Ht0 & Hk0 & _).
  constructor; simpl.
  - intros h t Ht. lookup_cases. by eapply Hfresh.
  - intros h Hh. destruct (Hheart h Hh) as (t & Ht & ? & ?).
    exists t. split; [|done]. rewrite lookup_delete_ne; [done|].
    intros ->. congruence.
  - done.
  - intros h Hh. destruct (Hupd h Hh) as [Hlt Hk]. split; [done|].
    intros t Ht. lookup_cases. by apply Hk.
  - intros h t Ht Hk. lookup_cases. by eapply Hflush.
  - done.
  - done.
  - done.
Qed.

Lemma wf_ws_close s how w : wf w -> wf (ws_close s how w).
Proof.
  intros H. unfold ws_close.
  destruct (sockets (env w) !! s) as [k|] eqn:Hs; [|done].
  wf_fields H.
  assert (Hgoal : wf (upd_env (fun b =>
            set_sockets (<[s := {| ready := CLOSING; closing := how |}]>
                           (sockets b)) b) w)).
  { constructor; simpl; try done.
    intros s' k' Hk'. lookup_cases; eauto. }
  by destruct (ready k).
Qed.

Lemma wf_set_ready s r w : wf w -> wf (set_ready s r w).
Proof.
  intros H. wf_fields H. constructor; simpl; try done.
  intros s' k' Hk'. apply lookup_alter_Some in Hk' as [(_ & k & Hk & _)|[_ Hk]]; eauto.
Qed.

Lemma wf_connect w : wf w -> wf (connect w).
Proof.
  intros H. unfold connect.
  destruct (socketIsOpen w); [done|].
  destruct (webSocketBlocked _); [done|].
  apply wf_setTimer; [done|].
  wf_fields H. constructor; simpl; eauto.
Qed.

Lemma wf_connectionTimeout w : wf w -> wf (connectionTimeout w).2.
Proof.
  intros H. unfold connectionTimeout.
  destruct (websocket (this w)) as [s|]; [|done].
  destruct (readyStateOf s w) as [[]|]; simpl; try done; by apply wf_ws_close.
Qed.

Lemma wf_handleWebSocketOpen w :
  is_Some (websocket (this w)) -> wf w -> wf (handleWebSocketOpen w).
Proof.
  intros Hws H. unfold handleWebSocketOpen.
  eapply wf_ext; [reflexivity|].
  eapply wf_ext; [apply core_emit|].
  apply wf_startHeartbeat.
  wf_fields H. constructor; simpl; eauto.
Qed.

Lemma wf_scheduleReconnect w : wf w -> wf (scheduleReconnect w).
Proof.
  intros H. unfold scheduleReconnect. apply wf_setTimer; [done|].
  eapply wf_ext; [|exact H]. reflexivity.
Qed.

Lemma wf_handleWebSocketClose code w : wf w -> wf (handleWebSocketClose code w).
Proof.
  intros H. unfold handleWebSocketClose.
  match goal with |- wf (if _ then scheduleReconnect ?x else _) =>
    assert (Hx : wf x) end.
  { eapply wf_ext; [reflexivity|].
    eapply wf_ext; [apply core_emit|].
    apply wf_stopHeartbeat.
    wf_fields H. constructor; simpl; eauto. done. }
  case_match; [by apply wf_scheduleReconnect|by apply wf_startPollingFallback].
Qed.

Lemma wf_clear_updateTimer h w :
  updateTimer (this w) = Some h -> wf w -> wf (clearTimer h w).
Proof.
  intros Hu H. wf_fields H. destruct (Hupd h Hu) as [Hlt Hkind].
  constructor; simpl.
  - intros h' t' Ht. lookup_cases. by eapply Hfresh.
  - intros h' Hh'. destruct (Hheart h' Hh') as (t' & Ht' & Hk' & ?).
    exists t'. split; [|done]. rewrite lookup_delete_ne; [done|].
    intros ->. apply Hkind in Ht' as [? ?]. congruence.
  - intros h' Hh'. destruct (Hpoll h' Hh') as (t' & Ht' & Hk' & ?).
    exists t'. split; [|done]. rewrite lookup_delete_ne; [done|].
    intros ->. apply Hkind in Ht' as [? ?]. congruence.
  - intros h' Hh'. destruct (Hupd h' Hh') as [? Hk']. split; [done|].
    intros t' Ht'. lookup_cases. by apply Hk'.
  - intros h' t' Ht' Hk'. lookup_cases. by eapply Hflush.
  - done.
  - done.
  - done.
Qed.

Lemma wf_cleanup w : wf w -> wf (cleanup w).
Proof.
  intros H. unfold cleanup.
  assert (H2 : wf (stopPollingFallback (stopHeartbeat w)))
    by by apply wf_stopPollingFallback, wf_stopHeartbeat.
  set (w2 := stopPollingFallback (stopHeartbeat w)) in *.
  assert (H3 : wf (match websocket (this w2) with
                   | Some s => ws_close s (CloseWith 1000 "Page unload") w2
                   | None => w2
                   end)).
  { destruct (websocket (this w2)); [by apply wf_ws_close|done]. }
  set (w3 := match websocket (this w2) with
             | Some s => ws_close s (CloseWith 1000 "Page unload") w2
             | None => w2
             end) in *.
  assert (H4 : wf (match updateTimer (this w3) with
                   | Some h => clearTimer h w3
                   | None => w3
                   end)).
  { destruct (updateTimer (this w3)) eqn:Hu; [by apply wf_clear_updateTimer|done]. }
  eapply wf_ext; [|exact H4]. reflexivity.
Qed.

Lemma wf_flush_fires h t w :
  timers (env w) !! h = Some t -> on_fire t = FlushQueue ->
  wf w -> wf (processUpdateQueue (clearTimer h w)).
Proof.
  intros Ht Hk H. rewrite processUpdateQueue_eq.
  pose proof (wf_flush w H h t Ht Hk) as Hu.
  pose proof (wf_clear_updateTimer h w Hu H) as H'.
  wf_fields H'. simpl in *.
  constructor; simpl; try done.
  intros h' t' Ht' Hk'. specialize (Hflush h' t' Ht' Hk').
  lookup_cases. congruence.
Qed.

Lemma wf_new_client opts pg stored : wf (new_client opts pg stored).
Proof.
  unfold new_client. apply wf_startPollingFallback.
  constructor; simpl; done.
Qed.

Lemma wf_step e w : wf w -> wf (step e w).
Proof.
  intros H. destruct e; simpl.
  - by apply wf_connect.
  - eapply wf_ext; [apply core_on|done].
  - eapply wf_ext; [apply core_off|done].
  - by apply wf_queueUpdate.
  - eapply wf_ext; [apply core_send|done].
  - by apply (wf_ext w).
  - destruct (readyStateOf s w) as [[]|] eqn:Hs; try done.
    apply wf_handleWebSocketOpen; [|by apply wf_set_ready].
    unfold readyStateOf in Hs.
    destruct (sockets (env w) !! s) as [k|] eqn:Hk; [|done].
    simpl. by eapply wf_sockets.
  - destruct (readyStateOf s w) as [[]|]; try done.
    by apply wf_handleWebSocketMessage.
  - assert (wf (handleWebSocketError w)).
    { unfold handleWebSocketError.
      apply (wf_ext w); [|done]. by rewrite <- (core_emit "error" (JObj [("type", JStr "error")]) w). }
    by destruct (readyStateOf s w) as [[]|].
  - assert (wf (handleWebSocketClose code (set_ready s CLOSED w)))
      by by apply wf_handleWebSocketClose, wf_set_ready.
    by destruct (readyStateOf s w) as [[]|].
  - destruct (timers (env w) !! h) as [t|] eqn:Ht; [|done].
    destruct (on_fire t) eqn:Hk; simpl.
    + apply wf_connectionTimeout.
      destruct (repeats t) eqn:Hr; [done|].
      eapply wf_clearTimer; eauto. congruence.
    + unfold lift, reconnectTick. simpl.
      assert (wf (if repeats t then w else clearTimer h w)).
      { destruct (repeats t) eqn:Hr; [done|].
        eapply wf_clearTimer; eauto. congruence. }
      destruct (isConnected _); [done|]. by apply wf_connect.
    + eapply wf_ext; [apply core_heartbeatTick|].
      destruct (repeats t) eqn:Hr; [done|].
      eapply wf_clearTimer; eauto. congruence.
    + unfold lift. simpl.
      pose proof (wf_flush w H h t Ht Hk) as Hu.
      destruct (wf_update w H h Hu) as [_ Hkind].
      destruct (Hkind t Ht) as [_ ->].
      by eapply wf_flush_fires.
    + unfold lift. simpl.
      assert (wf (if repeats t then w else clearTimer h w)) as Hw.
      { destruct (repeats t) eqn:Hr; [done|].
        eapply wf_clearTimer; eauto. congruence. }
      eapply wf_ext; [|exact Hw]. reflexivity.
  - destruct (inflight (env w)); [done|].
    assert (wf (upd_env (set_inflight n) w)) by by apply (wf_ext w).
    destruct r; simpl; try done.
    + eapply wf_ext; [apply core_observe_all|done].
    + eapply wf_ext; [apply core_observe_all|done].
    + by apply wf_handleMetricsUpdate.
  - destruct hidden; unfold handlePageHidden, handlePageVisible.
    + destruct (isConnected _); [|done].
      eapply wf_ext; [apply core_send|done].
    + destruct (isConnected _); simpl.
      * eapply wf_ext; [apply core_send|done].
      * by apply wf_connect.
  - unfold handleNetworkOnline. destruct (isConnected _); [done|].
    by apply wf_connect.
  - by apply (wf_ext w).
  - by apply wf_cleanup.
  - by apply (wf_ext w).
Qed.

Lemma reachable_wf w : reachable w -> wf w.
Proof.
  induction 1 as [opts pg stored|e w _ IH].
  - apply wf_new_client.
  - by apply wf_step.
Qed.

Lemma live_reachable w : live w -> reachable w.
Proof. induction 1; by constructor. Qed.

Lemma reachable_run es w : reachable w -> reachable (run es w).
Proof.
  revert w. induction es as [|e es IH]; intros w H; [done|].
  simpl. apply IH. by constructor.
Qed.

(** ** Sending *)

(** C9.  In every state a client can reach, [send] never throws; it
    transmits the message on the client's socket when the client is
    connected (it saw the socket open and the socket is still open), and
    otherwise it leaves the whole world, the trace of sent frames included,
    as it was. *)
Theorem send_only_when_connected (w : world) (data : jsval) :
  reachable w ->
  (send data w).1 = Normal /\
  (connected w = false -> (send data w).2 = w) /\
  (connected w = true ->
     exists s, websocket (this w) = Some s /\
               (send data w).2 = observe (Sent s data) w) /\
  (frames_sent (trace (env (send data w).2)) <> frames_sent (trace (env w)) ->
     connected w = true).
Proof.
  intros Hr. pose proof (wf_connected w (reachable_wf w Hr)) as Hc.
  unfold connected, socketIsOpen, send, whenOpen, ws_send.
  destruct (isConnected (this w)); simpl; [|by repeat split].
  destruct (Hc eq_refl) as [s Hs]. rewrite Hs.
  destruct (readyStateOf s w) as [[]|]; simpl; repeat split; try done.
  intros _. by exists s.
Qed.

(** ** Pending timers *)

Lemma elem_of_pending cb w h :
  h ∈ pending cb w <->
  exists t, timers (env w) !! h = Some t /\ on_fire t = cb.
Proof.
  unfold pending. rewrite list_elem_of_fmap. split.
  - intros ([h' t] & -> & Hin). apply elem_of_map_to_list in Hin.
    apply map_lookup_filter_Some in Hin as [Hl Hp]. by exists t.
  - intros (t & Hl & Hk). exists (h, t). split; [done|].
    apply elem_of_map_to_list, map_lookup_filter_Some. done.
Qed.

Lemma NoDup_pending cb w : NoDup (pending cb w).
Proof. apply NoDup_fst_map_to_list. Qed.

Lemma pending_nil cb w :
  (forall h t, timers (env w) !! h = Some t -> on_fire t <> cb) ->
  pending cb w = [].
Proof.
  intros H. destruct (pending cb w) as [|h l] eqn:E; [done|].
  assert (Hin : h ∈ pending cb w) by (rewrite E; apply list_elem_of_here).
  apply elem_of_pending in Hin as (t & Ht & Hk). by destruct (H h t Ht).
Qed.

Lemma pending_singleton cb w h :
  (forall h', h' ∈ pending cb w <-> h' = h) -> pending cb w = [h].
Proof.
  intros H. pose proof (NoDup_pending cb w) as Hnd.
  destruct (pending cb w) as [|a [|b l]] eqn:E.
  - assert (Hin : h ∈ @nil positive) by by apply H. by apply elem_of_nil in Hin.
  - f_equal. apply H. apply list_elem_of_here.
  - assert (a = h) as -> by (apply H; apply list_elem_of_here).
    assert (b = h) as -> by (apply H; apply list_elem_of_further, list_elem_of_here).
    apply NoDup_cons in Hnd as [Hnot _]. destruct Hnot. apply list_elem_of_here.
Qed.

Lemma pending_flush_at_most_one w :
  wf w -> (length (pending FlushQueue w) <= 1)%nat.
Proof.
  intros H. pose proof (NoDup_pending FlushQueue w) as Hnd.
  destruct (pending FlushQueue w) as [|a [|b l]] eqn:E; simpl; [lia|lia|].
  assert (Ha : a ∈ pending FlushQueue w) by (rewrite E; apply list_elem_of_here).
  assert (Hb : b ∈ pending FlushQueue w)
    by (rewrite E; apply list_elem_of_further, list_elem_of_here).
  apply elem_of_pending in Ha as (ta & Hta & Hka).
  apply elem_of_pending in Hb as (tb & Htb & Hkb).
  pose proof (wf_flush w H a ta Hta Hka) as Hua.
  pose proof (wf_flush w H b tb Htb Hkb) as Hub.
  assert (a = b) as -> by congruence.
  apply NoDup_cons in Hnd as [Hnot _]. destruct Hnot. apply list_elem_of_here.
Qed.

(** ** One flush per throttle window *)

Lemma queueUpdate_tracked u w h :
  updateTimer (this w) = Some h ->
  queueUpdate u w = upd_this (fun c => set_updateQueue (updateQueue c ++ [u]) c) w.
Proof. intros Hu. unfold queueUpdate. simpl. by rewrite Hu. Qed.

Lemma enqueue_burst u us w :
  updateTimer (this w) = None ->
  foldl (fun w u => queueUpdate u w) w (u :: us) = after_burst (u :: us) w.
Proof.
  intros Hu. revert u. induction us as [|v us IH] using rev_ind; intros u.
  - simpl. unfold queueUpdate. simpl. by rewrite Hu.
  - rewrite app_comm_cons, foldl_snoc, IH.
    rewrite (queueUpdate_tracked _ _ (nextTimer (env w))) by done.
    unfold after_burst, upd_this; simpl. by rewrite <- app_assoc.
Qed.

Lemma no_flush_pending w :
  wf w -> updateTimer (this w) = None ->
  forall h t, timers (env w) !! h = Some t -> on_fire t <> FlushQueue.
Proof.
  intros H Hu h t Ht Hk. pose proof (wf_flush w H h t Ht Hk). congruence.
Qed.

(** C3, as the code has it.  A burst of [K >= 1] enqueues that starts with
    no flush timer tracked schedules exactly one flush timer; when it fires
    there is exactly one flush, which calls the buffered functions in
    enqueue order, each once, up to and including the first one that throws
    (all of them when none throws); afterwards the buffer is empty and no
    flush timer is pending; and in no reachable state are two flush timers
    pending. *)
Theorem burst_is_flushed_once (w : world) (us : list update_fn) :
  reachable w ->
  updateTimer (this w) = None ->
  us <> [] ->
  let h := nextTimer (env w) in
  let w1 := foldl (fun w u => queueUpdate u w) w us in
  let w2 := step (TimerFires h) w1 in
  pending FlushQueue w1 = [h] /\
  updateQueue (this w1) = us /\
  flushes (trace (env w2)) = S (flushes (trace (env w))) /\
  invocations (trace (env w2)) =
    invocations (trace (env w)) ++ invoked_prefix (page (env w)) us /\
  (forallb is_function us = true ->
   existsb (update_throws (page (env w))) us = false ->
   invocations (trace (env w2)) = invocations (trace (env w)) ++ us) /\
  pending FlushQueue w2 = [] /\
  updateQueue (this w2) = [] /\
  updateTimer (this w2) = None /\
  (forall w', reachable w' -> (length (pending FlushQueue w') <= 1)%nat).
Proof.
  intros Hr Hu Hne h w1 w2.
  pose proof (reachable_wf w Hr) as Hwf.
  pose proof (wf_queue w Hwf Hu) as Hq.
  pose proof (no_flush_pending w Hwf Hu) as Hnone.
  destruct us as [|u us]; [done|].
  assert (Hw1 : w1 = after_burst (u :: us) w) by by apply enqueue_burst.
  assert (Hlook : timers (env w1) !! h =
            Some {| on_fire := FlushQueue;
                    delay := inject_Z (updateThrottle (options (this w)));
                    repeats := false |}).
  { rewrite Hw1. simpl. apply lookup_insert_eq. }
  assert (Hw2 : w2 = processUpdateQueue (clearTimer h w1)).
  { unfold w2. simpl. by rewrite Hlook. }
  clearbody w2. clearbody w1. clear Hlook.
  assert (Hqne : u :: us <> []) by done.
  remember (u :: us) as q eqn:Eq. clear Eq Hne u us.
  assert (Hinv : invocations (trace (env w2)) =
            invocations (trace (env w)) ++ invoked_prefix (page (env w)) q).
  { rewrite Hw2, processUpdateQueue_eq, Hw1. simpl trace. rewrite Hq.
    rewrite invocations_app. f_equal. simpl app.
    change (invocations (FlushStarted :: ?l)) with (invocations l).
    rewrite invocations_app, invocations_Invoked.
    simpl page. simpl updateQueue.
    destruct (existsb _ _); simpl; by rewrite app_nil_r. }
  split; [|split; [|split; [|split; [|split; [|split; [|split; [|split]]]]]]].
  - apply pending_singleton. intros h'. rewrite elem_of_pending, Hw1. simpl.
    split.
    + intros (t & Ht & Hk). apply lookup_insert_Some in Ht as [[? ?]|[? Ht]]; [done|].
      by destruct (Hnone h' t Ht).
    + intros ->. eexists. by rewrite lookup_insert_eq.
  - rewrite Hw1. simpl. by rewrite Hq.
  - rewrite Hw2, processUpdateQueue_eq, Hw1. simpl trace.
    rewrite flushes_app. simpl app.
    change (flushes (FlushStarted :: ?l)) with (S (flushes l)).
    rewrite flushes_app, flushes_Invoked.
    destruct (existsb _ _); unfold flushes; simpl; lia.
  - exact Hinv.
  - intros Hfun Hno. rewrite Hinv. f_equal.
    rewrite invoked_prefix_no_throw by done.
    clear -Hfun. induction q as [|x l IH]; [done|].
    simpl in *. apply andb_true_iff in Hfun as [-> Hl]. by rewrite IH.
  - apply pending_nil. intros h' t. rewrite Hw2, processUpdateQueue_eq, Hw1. simpl.
    intros Ht. apply lookup_delete_Some in Ht as [Hneq Ht].
    apply lookup_insert_Some in Ht as [[? ?]|[? Ht]]; [done|].
    by apply (Hnone h' t).
  - by rewrite Hw2, processUpdateQueue_eq.
  - by rewrite Hw2, processUpdateQueue_eq.
  - intros w' Hr'. by apply pending_flush_at_most_one, reachable_wf.
Qed.

(** ** Polling runs next to the push channel *)

Ltac unfold_methods :=
  unfold connect, on, off, queueUpdate, send, heartbeatTick, whenOpen,
    clearNotifications, handleWebSocketOpen, handleWebSocketMessage,
    handleWebSocketError, handleWebSocketClose, handleMetricsUpdate,
    handleAgentStatusChange, handleTaskStatusChange, handleSystemAlert,
    handlePoolScaling, processRealTimeUpdate, destructure, showNotification,
    storeNotification, scheduleReconnect, reconnectTick, connectionTimeout,
    startPollingFallback, startHeartbeat, stopHeartbeat, pollTick,
    pollSettled, handlePageHidden, handlePageVisible, handleNetworkOnline,
    handleNetworkOffline, runTimer, try_log, andThen, lift, ret, throw,
    ws_close, ws_send, set_ready, newWebSocket, setTimer, clearTimer,
    observe, updateConnectionStatus in *.

Ltac crush_step :=
  repeat first
    [ progress unfold_methods
    | progress (rewrite ?emit_eq, ?processUpdateQueue_eq in * )
    | progress simpl in *
    | progress simplify_eq
    | case_match ].

Lemma polling_tracked_step e w :
  e <> BeforeUnload ->
  is_Some (pollingInterval (this w)) ->
  is_Some (pollingInterval (this (step e w))).
Proof.
  intros He Hp.
  destruct e as [| | | | | | |s f| | | | | | | | |]; try done; simpl.
  all: try (destruct (readyStateOf s w) as [[]|]; try done;
            apply (handleWebSocketMessage_keeps
                     (fun w => is_Some (pollingInterval (this w)))); try done;
            [ unfold core; by intros ? ? [= _ _ _ _ _ -> _ _ _]
            | intros u w0 H0; unfold queueUpdate; simpl; by case_match ]).
  all: crush_step; eauto.
Qed.

Lemma live_polling_tracked w : live w -> is_Some (pollingInterval (this w)).
Proof.
  induction 1 as [opts pg stored|e w _ IH He].
  - unfold new_client, startPollingFallback. simpl. eauto.
  - by apply polling_tracked_step.
Qed.

Lemma polling_active_tracked w :
  wf w -> is_Some (pollingInterval (this w)) -> polling_active w = true.
Proof.
  intros H [h Hh]. destruct (wf_polling w H h Hh) as (t & Ht & Hk & _).
  unfold polling_active. apply bool_decide_eq_true. intros Hnil.
  assert (Hin : h ∈ pending PollMetrics w) by (apply elem_of_pending; eauto).
  rewrite Hnil in Hin. by apply elem_of_nil in Hin.
Qed.

Lemma socketIsOpen_after_open s w :
  websocket (this w) = Some s ->
  readyStateOf s w = Some CONNECTING ->
  socketIsOpen (step (SocketOpens s) w) = true.
Proof.
  intros Hs Hr. simpl. rewrite Hr.
  unfold handleWebSocketOpen, updateConnectionStatus. rewrite emit_eq.
  unfold socketIsOpen, readyStateOf in *. simpl. rewrite Hs. simpl.
  rewrite lookup_alter_eq.
  destruct (sockets (env w) !! s); [done|discriminate].
Qed.

(** C1, as the code has it.  From construction until teardown the polling
    interval stays active through every sequence of channel opens, closes
    and reconnects; establishing a push connection does not deactivate it:
    once the client's socket opens, the open channel and the polling timer
    are live together, and every polling timer that was pending still is. *)
Theorem polling_stays_active (w : world) :
  live w ->
  polling_active w = true /\
  (forall s,
     websocket (this w) = Some s ->
     readyStateOf s w = Some CONNECTING ->
     let w' := step (SocketOpens s) w in
     channel_open w' = true /\
     polling_active w' = true /\
     (forall h, h ∈ pending PollMetrics w -> h ∈ pending PollMetrics w')).
Proof.
  intros Hl.
  pose proof (reachable_wf w (live_reachable w Hl)) as Hwf.
  split.
  { apply polling_active_tracked; [done|]. by apply live_polling_tracked. }
  intros s Hs Hr w'.
  assert (Hl' : live w') by (by apply live_step).
  split; [by apply socketIsOpen_after_open|]. split.
  - apply polling_active_tracked.
    + by apply reachable_wf, live_reachable.
    + by apply live_polling_tracked.
  - intros h. rewrite !elem_of_pending. intros (t & Ht & Hk).
    exists t. split; [|done]. unfold w'. simpl. rewrite Hr.
    unfold handleWebSocketOpen, updateConnectionStatus. rewrite emit_eq.
    simpl. rewrite lookup_insert_ne; [done|].
    pose proof (wf_fresh w Hwf h t Ht). lia.
Qed.

(** ** Teardown *)

Lemma timers_cleanup w h :
  timers (env (cleanup w)) !! h =
  if bool_decide (heartbeatTimer (this w) = Some h \/
                  pollingInterval (this w) = Some h \/
                  updateTimer (this w) = Some h)
  then None else timers (env w) !! h.
Proof.
  assert (Heq : timers (env (cleanup w)) =
    (let del o m := match o with Some x => delete x m | None => m end in
     del (updateTimer (this w))
       (del (pollingInterval (this w))
          (del (heartbeatTimer (this w)) (timers (env w)))))).
  { unfold cleanup, stopHeartbeat, stopPollingFallback, ws_close, clearTimer.
    repeat (case_match; simpl in *; simplify_eq); done. }
  rewrite Heq. simpl.
  destruct (heartbeatTimer (this w)) as [hb|];
    destruct (pollingInterval (this w)) as [hp|];
    destruct (updateTimer (this w)) as [hu|];
    case_bool_decide as Hd;
    rewrite ?lookup_delete; repeat case_decide; subst; try done;
    try (destruct Hd; eauto; fail);
    try (destruct Hd as [?|[?|?]]; congruence).
Qed.

(** C2, as the code has it.  Teardown cancels the timers whose handles the
    client keeps (the heartbeat interval, the polling interval and the
    pending coalescing flush, after which no flush timer is pending at all)
    and asks the client's socket, when it is connecting or open, to close
    with the clean-close code 1000.  No handle is kept for the backoff
    reconnect timer or the connection timeout: they stay pending after
    teardown. *)
Theorem cleanup_cancels_tracked_timers (w : world) :
  reachable w ->
  let w' := cleanup w in
  heartbeatTimer (this w') = None /\
  pollingInterval (this w') = None /\
  (forall h, heartbeatTimer (this w) = Some h \/
             pollingInterval (this w) = Some h \/
             updateTimer (this w) = Some h ->
             timers (env w') !! h = None) /\
  pending FlushQueue w' = [] /\
  (forall s k, websocket (this w) = Some s ->
               sockets (env w) !! s = Some k ->
               ready k = OPEN \/ ready k = CONNECTING ->
               sockets (env w') !! s =
                 Some {| ready := CLOSING;
                         closing := CloseWith 1000 "Page unload" |}) /\
  (forall h t, timers (env w) !! h = Some t ->
               on_fire t = ReconnectAttempt \/ on_fire t = ConnectionTimeout ->
               timers (env w') !! h = Some t).
Proof.
  intros Hr w'. pose proof (reachable_wf w Hr) as Hwf.
  split; [|split; [|split; [|split; [|split]]]].
  - unfold w', cleanup, stopHeartbeat, stopPollingFallback, ws_close, clearTimer.
    repeat (case_match; simpl in *; simplify_eq); done.
  - unfold w', cleanup, stopHeartbeat, stopPollingFallback, ws_close, clearTimer.
    repeat (case_match; simpl in *; simplify_eq); done.
  - intros h Hh. unfold w'. rewrite timers_cleanup.
    by rewrite bool_decide_eq_true_2.
  - apply pending_nil. intros h t. unfold w'. rewrite timers_cleanup.
    case_bool_decide as Hd; [done|]. intros Ht Hk.
    apply Hd. right. right. by eapply wf_flush.
  - intros s k Hs Hk Hready. unfold w', cleanup, stopHeartbeat,
      stopPollingFallback, ws_close, clearTimer.
    repeat (case_match; simpl in *; simplify_eq);
      rewrite ?lookup_insert_eq; try done; destruct Hready; congruence.
  - intros h t Ht Hk. unfold w'. rewrite timers_cleanup.
    case_bool_decide as Hd; [|done]. exfalso.
    destruct Hd as [Hd|[Hd|Hd]].
    + destruct (wf_heartbeat w Hwf h Hd) as (t' & Ht' & Hk' & _).
      destruct Hk; congruence.
    + destruct (wf_polling w Hwf h Hd) as (t' & Ht' & Hk' & _).
      destruct Hk; congruence.
    + destruct (wf_update w Hwf h Hd) as [_ Hkind].
      destruct (Hkind t Ht) as [Hk' _]. destruct Hk; congruence.
Qed.

(** ** Polling pulls and pushed metrics *)

Lemma processRealTimeUpdate_metrics data w :
  field "type" data = JStr "metrics_update" ->
  processRealTimeUpdate data w =
  (Normal, emit "update" data (handleMetricsUpdate (field "payload" data) w)).
Proof.
  intros Ht. unfold processRealTimeUpdate.
  assert (nullish data = false) as -> by (by destruct data).
  rewrite Ht. reflexivity.
Qed.

(** C4, as the code has it.  A successful polling pull with body [p] runs
    the same [handleMetricsUpdate p] as a pushed [metrics_update] frame
    with payload [p]: the same refresh is enqueued and the subscribers of
    every event other than [update] see the same deliveries.  The pushed
    frame is in addition published, whole, on the generic [update] event,
    which a pull never is; with no [update] subscriber the two worlds are
    equal. *)
Theorem poll_matches_push_except_update_event (w : world) (data p : jsval) :
  field "type" data = JStr "metrics_update" ->
  field "payload" data = p ->
  let pushed := handleWebSocketMessage (Parsed data) w in
  let polled := pollSettled (FetchJson p) w in
  polled = handleMetricsUpdate p w /\
  pushed = emit "update" data polled /\
  this pushed = this polled /\
  deliveries (trace (env pushed)) =
    deliveries (trace (env polled)) ++
    map (fun cb => ("update", cb_id cb, data))
        (default [] (listeners (this w) !! "update")) /\
  (forall name, name <> "update" ->
     deliveries_for name (trace (env pushed)) =
     deliveries_for name (trace (env polled))) /\
  (default [] (listeners (this w) !! "update") = [] -> pushed = polled).
Proof.
  intros Ht Hp pushed polled.
  assert (Hpolled : polled = handleMetricsUpdate p w) by done.
  assert (Hpushed : pushed = emit "update" data polled).
  { unfold pushed, handleWebSocketMessage, try_log.
    rewrite processRealTimeUpdate_metrics by done. by rewrite Hp. }
  assert (Hl : listeners (this polled) = listeners (this w)).
  { rewrite Hpolled. unfold handleMetricsUpdate. rewrite emit_eq.
    unfold queueUpdate. simpl. by case_match. }
  assert (Hdel : deliveries (trace (env pushed)) =
    deliveries (trace (env polled)) ++
    map (fun cb => ("update", cb_id cb, data))
        (default [] (listeners (this w) !! "update"))).
  { rewrite Hpushed, emit_eq, trace_observe_all, deliveries_app,
      deliveries_emit_obs. by rewrite Hl. }
  split; [done|]. split; [done|]. split; [|split; [done|split]].
  - rewrite Hpushed, emit_eq. reflexivity.
  - intros name Hname. unfold deliveries_for. rewrite Hdel, List.filter_app.
    rewrite <- (app_nil_r (List.filter _ (deliveries (trace (env polled))))) at 2.
    f_equal. clear Hdel. induction (default [] _) as [|cb l IH]; [done|].
    cbn [map List.filter fst].
    destruct (String.eqb_spec "update" name); [congruence|done].
  - intros Hnone. rewrite Hpushed, emit_eq, Hl, Hnone. apply observe_all_nil.
Qed.

(** ** Exhausting the reconnect attempts *)

Lemma handleWebSocketClose_eq code w :
  handleWebSocketClose code w =
  let w4 := updateConnectionStatus "disconnected"
              (observe_all
                 (emit_obs "disconnected" JUndef
                    (default [] (listeners (this w) !! "disconnected")))
                 (stopHeartbeat (upd_this (set_isConnected false) w))) in
  if negb (code =? 1000) &&
     (reconnectAttempts (this w) <? maxReconnectAttempts (options (this w)))
  then scheduleReconnect w4
  else startPollingFallback w4.
Proof.
  unfold handleWebSocketClose. rewrite emit_eq.
  unfold stopHeartbeat. simpl. by destruct (heartbeatTimer (this w)).
Qed.

Lemma no_retry_at_maximum code w :
  maxReconnectAttempts (options (this w)) <= reconnectAttempts (this w) ->
  let w' := handleWebSocketClose code w in
  reconnectAttempts (this w') = reconnectAttempts (this w) /\
  indicator (env w') = "polling" /\
  is_Some (pollingInterval (this w')) /\
  (forall h t, timers (env w') !! h = Some t -> on_fire t = ReconnectAttempt ->
     timers (env w) !! h = Some t).
Proof.
  intros Hmax w'. unfold w'. rewrite handleWebSocketClose_eq. simpl.
  assert ((reconnectAttempts (this w) <? maxReconnectAttempts (options (this w)))
          = false) as -> by (apply Z.ltb_ge; lia).
  rewrite andb_false_r. unfold startPollingFallback, stopHeartbeat. simpl.
  destruct (heartbeatTimer (this w)); simpl; repeat split; eauto;
    intros h t Ht Hk; lookup_cases; done.
Qed.

Lemma attempt_connection_eq w :
  isConnected (this w) = false ->
  exists m, (forall h t, m !! h = Some t -> timers (env w) !! h = Some t) /\
            attempt_connection w = connect (upd_env (set_timers m) w).
Proof.
  intros Hc. unfold attempt_connection.
  assert (Hid : upd_env (set_timers (timers (env w))) w = w)
    by (by destruct w as [c []]).
  destruct (pending ReconnectAttempt w) as [|h l] eqn:E.
  - exists (timers (env w)). by rewrite Hid.
  - assert (Hin : h ∈ pending ReconnectAttempt w) by (rewrite E; apply list_elem_of_here).
    apply elem_of_pending in Hin as (t & Ht & Hk).
    simpl. rewrite Ht, Hk. simpl. unfold lift, reconnectTick.
    destruct (repeats t); simpl; rewrite Hc.
    + exists (timers (env w)). by rewrite Hid.
    + exists (delete h (timers (env w))). split; [|done].
      intros h' t' Hd. by apply lookup_delete_Some in Hd as [_ ?].
Qed.

Lemma failed_attempt_spec w :
  isConnected (this w) = false ->
  socketIsOpen w = false ->
  webSocketBlocked (page (env w)) = false ->
  let retry := reconnectAttempts (this w) <? maxReconnectAttempts (options (this w)) in
  let w' := failed_attempt w in
  options (this w') = options (this w) /\
  page (env w') = page (env w) /\
  isConnected (this w') = false /\
  socketIsOpen w' = false /\
  reconnectAttempts (this w') =
    (if retry then reconnectAttempts (this w) + 1 else reconnectAttempts (this w)) /\
  indicator (env w') = (if retry then "disconnected" else "polling") /\
  timers (env w') !! Pos.succ (nextTimer (env w)) =
    Some (if retry
          then {| on_fire := ReconnectAttempt;
                  delay := (inject_Z (reconnectInterval (options (this w))) *
                            Qpower (3 # 2) (reconnectAttempts (this w) + 1 - 1))%Q;
                  repeats := false |}
          else {| on_fire := PollMetrics; delay := inject_Z 15000;
                  repeats := true |}) /\
  (retry = false ->
   is_Some (pollingInterval (this w')) /\
   forall h t, timers (env w') !! h = Some t -> on_fire t = ReconnectAttempt ->
     timers (env w) !! h = Some t).
Proof.
  intros Hc Ho Hb retry w'.
  destruct (attempt_connection_eq w Hc) as (m & Hm & Heq).
  unfold w', failed_attempt. rewrite Heq. clear Heq.
  unfold connect.
  assert (socketIsOpen (upd_env (set_timers m) w) = false) as -> by exact Ho.
  simpl page. rewrite Hb. simpl.
  unfold readyStateOf. simpl. rewrite lookup_insert_eq. simpl.
  rewrite handleWebSocketClose_eq.
  unfold stopHeartbeat, scheduleReconnect, startPollingFallback, socketIsOpen,
    readyStateOf. simpl. fold retry.
  destruct retry, (heartbeatTimer (this w)); simpl;
    rewrite ?lookup_alter_eq, ?lookup_insert_eq; simpl;
    repeat split; try done; eauto;
    intros h t Ht Hk; lookup_cases; try done; eauto.
Qed.

(** C7, as the code has it.  With the counter at 0 and a maximum of [N],
    each of the first [N] consecutive failed connection attempts increments
    the counter and schedules a retry, so after [N] failures the [N]-th
    retry is pending and the client shows "disconnected"; the failure of
    that retry, the [N+1]-th, finds the counter at the maximum, schedules
    no retry and starts the polling fallback.  While the counter is at the
    maximum no close, clean or not, schedules a retry. *)
Theorem polling_after_retries_exhausted (w : world) (N : nat) :
  reconnectAttempts (this w) = 0 ->
  maxReconnectAttempts (options (this w)) = Z.of_nat N ->
  isConnected (this w) = false ->
  socketIsOpen w = false ->
  webSocketBlocked (page (env w)) = false ->
  let after k := Nat.iter k failed_attempt w in
  (forall k, (k < N)%nat ->
     reconnectAttempts (this (after (S k))) = Z.of_nat (S k) /\
     indicator (env (after (S k))) = "disconnected" /\
     timers (env (after (S k))) !! Pos.succ (nextTimer (env (after k))) =
       Some {| on_fire := ReconnectAttempt;
               delay := (inject_Z (reconnectInterval (options (this w))) *
                         Qpower (3 # 2) (Z.of_nat (S k) - 1))%Q;
               repeats := false |}) /\
  reconnectAttempts (this (after (S N))) = Z.of_nat N /\
  indicator (env (after (S N))) = "polling" /\
  is_Some (pollingInterval (this (after (S N)))) /\
  (forall h t, timers (env (after (S N))) !! h = Some t ->
     on_fire t = ReconnectAttempt -> timers (env (after N)) !! h = Some t) /\
  (forall w' code,
     maxReconnectAttempts (options (this w')) <= reconnectAttempts (this w') ->
     let w'' := handleWebSocketClose code w' in
     reconnectAttempts (this w'') = reconnectAttempts (this w') /\
     indicator (env w'') = "polling" /\
     (forall h t, timers (env w'') !! h = Some t ->
        on_fire t = ReconnectAttempt -> timers (env w') !! h = Some t)).
Proof.
  intros Ha Hmax Hc Ho Hb after.
  assert (Hinv : forall k, (k <= N)%nat ->
            options (this (after k)) = options (this w) /\
            page (env (after k)) = page (env w) /\
            isConnected (this (after k)) = false /\
            socketIsOpen (after k) = false /\
            reconnectAttempts (this (after k)) = Z.of_nat k).
  { induction k as [|k IH]; intros Hk; [done|].
    destruct IH as (Hopt & Hpg & Hcon & Hopen & Hatt); [lia|].
    assert (Hb' : webSocketBlocked (page (env (after k))) = false) by by rewrite Hpg.
    destruct (failed_attempt_spec (after k) Hcon Hopen Hb')
      as (Hopt' & Hpg' & Hcon' & Hopen' & Hatt' & _).
    change (after (S k)) with (failed_attempt (after k)).
    rewrite Hopt', Hpg', Hatt', Hopt, Hmax, Hatt.
    assert ((Z.of_nat k <? Z.of_nat N) = true) as -> by (apply Z.ltb_lt; lia).
    repeat split; try done. lia. }
  assert (Hstep : forall k, (k <= N)%nat ->
            isConnected (this (after k)) = false /\
            socketIsOpen (after k) = false /\
            webSocketBlocked (page (env (after k))) = false /\
            (reconnectAttempts (this (after k)) <?
             maxReconnectAttempts (options (this (after k)))) = (k <? N)%nat).
  { intros k Hk. destruct (Hinv k Hk) as (Hopt & Hpg & Hcon & Hopen & Hatt).
    rewrite Hopt, Hpg, Hatt, Hmax. repeat split; try done.
    destruct (Nat.ltb_spec k N); [apply Z.ltb_lt|apply Z.ltb_ge]; lia. }
  split; [|split; [|split; [|split; [|split]]]].
  - intros k Hk. destruct (Hstep k) as (Hcon & Hopen & Hb' & Hretry); [lia|].
    destruct (Hinv k) as (Hopt & _ & _ & _ & Hatt); [lia|].
    destruct (failed_attempt_spec (after k) Hcon Hopen Hb')
      as (_ & _ & _ & _ & Hatt' & Hind & Htimer & _).
    change (after (S k)) with (failed_attempt (after k)).
    rewrite Hretry in *.
    assert ((k <? N)%nat = true) as Hlt by (apply Nat.ltb_lt; lia).
    rewrite Hlt in *. rewrite Hatt', Hind, Htimer, Hatt, Hopt.
    split; [lia|]. split; [done|].
    replace (Z.of_nat k + 1 - 1) with (Z.of_nat (S k) - 1) by lia. done.
  - destruct (Hstep N) as (Hcon & Hopen & Hb' & Hretry); [lia|].
    destruct (Hinv N) as (_ & _ & _ & _ & Hatt); [lia|].
    destruct (failed_attempt_spec (after N) Hcon Hopen Hb')
      as (_ & _ & _ & _ & Hatt' & _).
    change (after (S N)) with (failed_attempt (after N)).
    rewrite Hatt', Hretry, Nat.ltb_irrefl. done.
  - destruct (Hstep N) as (Hcon & Hopen & Hb' & Hretry); [lia|].
    destruct (failed_attempt_spec (after N) Hcon Hopen Hb')
      as (_ & _ & _ & _ & _ & Hind & _).
    change (after (S N)) with (failed_attempt (after N)).
    by rewrite Hind, Hretry, Nat.ltb_irrefl.
  - destruct (Hstep N) as (Hcon & Hopen & Hb' & Hretry); [lia|].
    destruct (failed_attempt_spec (after N) Hcon Hopen Hb')
      as (_ & _ & _ & _ & _ & _ & _ & Hno).
    rewrite Hretry, Nat.ltb_irrefl in Hno. by destruct (Hno eq_refl).
  - destruct (Hstep N) as (Hcon & Hopen & Hb' & Hretry); [lia|].
    destruct (failed_attempt_spec (after N) Hcon Hopen Hb')
      as (_ & _ & _ & _ & _ & _ & _ & Hno).
    rewrite Hretry, Nat.ltb_irrefl in Hno. by destruct (Hno eq_refl).
  - intros w' code Hle w''.
    destruct (no_retry_at_maximum code w' Hle) as (? & ? & _ & ?). done.
Qed.

(** ** Concrete runs *)

(** C1, counterexample.  A freshly constructed client polls; after
    [connect()] and the socket's open event the channel is open and the
    polling timer is still running. *)
Lemma push_and_polling_live_together :
  ~ at_most_one_transport (run [CallConnect; SocketOpens 1] sample_world).
Proof. intros H. apply H. by vm_compute. Qed.

(** C1 at a client that has called [connect()]. *)
Lemma polling_stays_active_witness :
  live (step CallConnect sample_world) /\
  polling_active (step CallConnect sample_world) = true.
Proof.
  assert (Hl : live (step CallConnect sample_world))
    by (apply live_step; [apply live_new|discriminate]).
  split; [exact Hl|].
  exact (proj1 (polling_stays_active (step CallConnect sample_world) Hl)).
Defined.

(** C2, counterexample.  In [busy_world] a backoff timer, the heartbeat
    interval and a flush timer are pending; after [cleanup] the backoff
    timer still is. *)
Lemma teardown_leaves_backoff_timer : ~ teardown_cancels_everything busy_world.
Proof.
  intros H.
  assert (Hre : pending ReconnectAttempt (cleanup busy_world) = [])
    by (apply H; by vm_compute).
  vm_compute in Hre. discriminate.
Qed.

(** What follows the teardown of [busy_world]: the close event of the
    socket restarts polling, and the backoff timer fires and opens a third
    socket. *)
Example callbacks_after_teardown :
  let w := run [BeforeUnload; SocketCloses 2 1000; TimerFires 4] busy_world in
  pending PollMetrics w = [8%positive] /\
  websocket (this w) = Some 3%positive /\
  readyStateOf 3 w = Some CONNECTING.
Proof. by vm_compute. Qed.

(** C2 at [busy_world]. *)
Lemma cleanup_cancels_tracked_timers_witness :
  reachable busy_world /\ heartbeatTimer (this (cleanup busy_world)) = None.
Proof.
  assert (Hr : reachable busy_world) by (apply reachable_run, reach_new).
  split; [exact Hr|].
  exact (proj1 (cleanup_cancels_tracked_timers busy_world Hr)).
Defined.

(** C3, counterexample.  Two functions are enqueued in one window and the
    first throws: the flush calls the first only. *)
Lemma throwing_action_cuts_flush_short :
  ~ flush_invokes_every_action sample_world [External 1 true; External 2 false].
Proof. intros H. vm_compute in H. discriminate. Qed.

(** The same through the socket: a [metrics_update] frame without payload
    makes the dashboard refresh throw, and the refresh of the next frame in
    the window is never run. *)
Example missing_payload_starves_next_refresh :
  let w := run [CallConnect; SocketOpens 1;
                SocketMessage 1 (Parsed (JObj [("type", JStr "metrics_update")]));
                SocketMessage 1 (Parsed (metrics_frame sample_metrics));
                TimerFires 4; TimerFires 4] sample_world in
  invocations (trace (env w)) = [MetricsRefresh JUndef] /\
  updateQueue (this w) = [] /\
  pending FlushQueue w = [].
Proof. by vm_compute. Qed.

(** C3 at a fresh client and a burst of three actions. *)
Lemma burst_is_flushed_once_witness :
  reachable sample_world /\
  updateTimer (this sample_world) = None /\
  [External 1 false; PoolRefresh; MetricsRefresh sample_metrics] <> [] /\
  pending FlushQueue
    (foldl (fun w u => queueUpdate u w) sample_world
       [External 1 false; PoolRefresh; MetricsRefresh sample_metrics]) =
  [nextTimer (env sample_world)].
Proof.
  assert (Hr : reachable sample_world) by apply reach_new.
  assert (Hne : [External 1 false; PoolRefresh; MetricsRefresh sample_metrics] <> [])
    by discriminate.
  split; [exact Hr|]. split; [reflexivity|]. split; [exact Hne|].
  exact (proj1 (burst_is_flushed_once sample_world _ Hr eq_refl Hne)).
Defined.

(** C4, counterexample.  With one subscriber of the generic [update]
    event, a pushed [metrics_update] frame is delivered to it and a polling
    pull with the same payload is not. *)
Lemma update_subscriber_tells_push_from_poll :
  ~ poll_indistinguishable_from_push
      (run [CallOn "update" (subscriber 1 false); CallConnect; SocketOpens 1]
         sample_world)
      (metrics_frame sample_metrics).
Proof. intros H. vm_compute in H. discriminate. Qed.

(** C4 at a fresh client and a frame with [sample_metrics]. *)
Lemma poll_matches_push_except_update_event_witness :
  field "type" (metrics_frame sample_metrics) = JStr "metrics_update" /\
  field "payload" (metrics_frame sample_metrics) = sample_metrics /\
  pollSettled (FetchJson sample_metrics) sample_world =
  handleMetricsUpdate sample_metrics sample_world.
Proof.
  split; [reflexivity|]. split; [reflexivity|].
  exact (proj1 (poll_matches_push_except_update_event sample_world
                  (metrics_frame sample_metrics) sample_metrics eq_refl eq_refl)).
Defined.

(** C5 at an empty store and the notifications 1 to 51. *)
Lemma notification_store_capped_witness :
  length sample_notifications = 51%nat /\
  getStoredNotifications
    (foldl (fun w n => storeNotification n w) sample_world sample_notifications) =
  rev (drop 1 sample_notifications).
Proof.
  split; [reflexivity|].
  exact (proj1 (notification_store_capped sample_world sample_notifications eq_refl)).
Defined.

(** The first five delays of the default configuration: 5000, 7500, 11250,
    16875 and 25312.5 milliseconds. *)
Example default_backoff_delays :
  let delay_of k :=
    Qred (inject_Z (reconnectInterval default_options) * Qpower (3 # 2) (k - 1))%Q in
  map delay_of [1; 2; 3; 4; 5] =
  [(5000 # 1)%Q; (7500 # 1)%Q; (11250 # 1)%Q; (16875 # 1)%Q; (50625 # 2)%Q].
Proof. by vm_compute. Qed.

(** C6 at a fresh client: the first retry. *)
Lemma scheduleReconnect_delay_witness :
  exact_backoff (reconnectInterval (options (this sample_world)))
    (reconnectAttempts (this (scheduleReconnect sample_world))) = true /\
  timers (env (scheduleReconnect sample_world)) !! nextTimer (env sample_world) =
    Some {| on_fire := ReconnectAttempt;
            delay := (inject_Z (reconnectInterval (options (this sample_world))) *
                      Qpower (3 # 2)
                        (reconnectAttempts (this (scheduleReconnect sample_world)) - 1))%Q;
            repeats := false |}.
Proof.
  assert (H : exact_backoff (reconnectInterval (options (this sample_world)))
                (reconnectAttempts (this (scheduleReconnect sample_world))) = true)
    by reflexivity.
  split; [exact H|].
  exact (proj1 (proj2 (scheduleReconnect_delay sample_world H))).
Defined.

(** With the default interval of 5000 ms the arithmetic is exact for the
    attempts 1 to 28, which covers the default maximum of 10 attempts, and
    it is no longer exact at attempt 29. *)
Example default_backoff_delays_are_exact :
  forallb (exact_backoff (reconnectInterval default_options))
    (map Z.of_nat (seq 1 28)) = true /\
  exact_backoff (reconnectInterval default_options) 29 = false.
Proof. by vm_compute. Qed.

(** C7, counterexample.  With the default maximum of 10, after 10
    consecutive failed connection attempts the client shows "disconnected"
    and the tenth retry is pending. *)
Lemma retry_pending_after_max_failures : ~ polling_after_max_failures sample_world.
Proof. intros [_ H]. vm_compute in H. discriminate. Qed.

Example after_ten_failures :
  let w := Nat.iter 10 failed_attempt sample_world in
  reconnectAttempts (this w) = 10 /\
  indicator (env w) = "disconnected" /\
  pending ReconnectAttempt w = [21%positive] /\
  indicator (env (failed_attempt w)) = "polling".
Proof. by vm_compute. Qed.

(** C7 at a fresh client with the default maximum of 10. *)
Lemma polling_after_retries_exhausted_witness :
  reconnectAttempts (this sample_world) = 0 /\
  maxReconnectAttempts (options (this sample_world)) = Z.of_nat 10 /\
  isConnected (this sample_world) = false /\
  socketIsOpen sample_world = false /\
  webSocketBlocked (page (env sample_world)) = false /\
  indicator (env (Nat.iter 11 failed_attempt sample_world)) = "polling".
Proof.
  split; [reflexivity|]. split; [reflexivity|]. split; [reflexivity|].
  split; [reflexivity|]. split; [reflexivity|].
  exact (proj1 (proj2 (proj2
    (polling_after_retries_exhausted sample_world 10
       eq_refl eq_refl eq_refl eq_refl eq_refl)))).
Defined.

(** A pushed [agent_status_change] frame for an agent that failed: the
    subscriber of that event is called with the payload and a notification
    of type "warning" is stored. *)
Example failed_agent_is_published_and_recorded :
  let payload := JObj [("agent_id", JStr "a1"); ("old_status", JStr "idle");
                       ("new_status", JStr "failed"); ("pool_name", JStr "healthcare")] in
  let w := run [CallOn "agent_status_change" (subscriber 1 false);
                CallConnect; SocketOpens 1;
                SocketMessage 1 (Parsed (JObj [("type", JStr "agent_status_change");
                                               ("payload", payload)]))] sample_world in
  deliveries (trace (env w)) = [("agent_status_change", 1%nat, payload)] /\
  map (fun entry => (field "message" entry, field "type" entry, field "icon" entry))
      (getStoredNotifications w) =
    [(JStr "Agent a1 has failed", JStr "warning", JStr "alert-triangle")].
Proof. by vm_compute. Qed.

(** C8 at [subscribed_world]. *)
Lemma emit_isolates_throwing_callback_witness :
  listeners (this subscribed_world) !! "metrics_update" =
    Some ([subscriber 1 false] ++ subscriber 2 true :: [subscriber 3 false]) /\
  cb_throws (subscriber 2 true) sample_metrics = true /\
  deliveries (trace (env (emit "metrics_update" sample_metrics subscribed_world))) =
    deliveries (trace (env subscribed_world)) ++
    map (fun cb => ("metrics_update", cb_id cb, sample_metrics))
        ([subscriber 1 false] ++ subscriber 2 true :: [subscriber 3 false]).
Proof.
  assert (Hl : listeners (this subscribed_world) !! "metrics_update" =
    Some ([subscriber 1 false] ++ subscriber 2 true :: [subscriber 3 false]))
    by (vm_compute; reflexivity).
  split; [exact Hl|]. split; [reflexivity|].
  exact (proj1 (emit_isolates_throwing_callback subscribed_world
                  "metrics_update" sample_metrics _ _ _ Hl eq_refl)).
Defined.

(** C9 at a connected client. *)
Lemma send_only_when_connected_witness :
  reachable (run [CallConnect; SocketOpens 1] sample_world) /\
  (send (JObj [("type", JStr "page_hidden")])
     (run [CallConnect; SocketOpens 1] sample_world)).1 = Normal.
Proof.
  assert (Hr : reachable (run [CallConnect; SocketOpens 1] sample_world))
    by (apply reachable_run, reach_new).
  split; [exact Hr|].
  exact (proj1 (send_only_when_connected _ (JObj [("type", JStr "page_hidden")]) Hr)).
Defined.

(** C10 at [queued_world]. *)
Lemma flush_aborts_at_throwing_action_witness :
  updateQueue (this queued_world) =
    [External 1 false] ++ External 2 true :: [External 3 false] /\
  existsb (update_throws (page (env queued_world))) [External 1 false] = false /\
  update_throws (page (env queued_world)) (External 2 true) = true /\
  invocations (trace (env (processUpdateQueue queued_world))) =
    invocations (trace (env queued_world)) ++
    List.filter is_function [External 1 false] ++ [External 2 true].
Proof.
  split; [reflexivity|]. split; [reflexivity|]. split; [reflexivity|].
  exact (proj1
    (flush_aborts_at_throwing_action queued_world [External 1 false]
       [External 3 false] (External 2 true) eq_refl eq_refl eq_refl)).
Defined.

(** * Properties beyond the claims *)

(** ** Opening a connection *)

(** X1.  When the open event of a connecting socket is delivered, the
    client becomes connected, the attempt counter is reset to 0 whatever it
    was, a new heartbeat interval is started and tracked, the status shown
    is "connected" and the subscribers of [connected] are called.  The
    backoff therefore starts over: if that socket then closes abnormally
    and retries are allowed, the retry is scheduled after exactly the base
    interval. *)
Theorem open_resets_backoff (w : world) (s : positive) :
  readyStateOf s w = Some CONNECTING ->
  0 < maxReconnectAttempts (options (this w)) ->
  let w' := step (SocketOpens s) w in
  let w'' := step (SocketCloses s 1006) w' in
  isConnected (this w') = true /\
  reconnectAttempts (this w') = 0 /\
  heartbeatTimer (this w') = Some (nextTimer (env w)) /\
  timers (env w') !! nextTimer (env w) =
    Some {| on_fire := HeartbeatPing;
            delay := inject_Z (heartbeatInterval (options (this w)));
            repeats := true |} /\
  indicator (env w') = "connected" /\
  deliveries (trace (env w')) =
    deliveries (trace (env w)) ++
    map (fun cb => ("connected", cb_id cb, JUndef))
        (default [] (listeners (this w) !! "connected")) /\
  reconnectAttempts (this w'') = 1 /\
  timers (env w'') !! Pos.succ (nextTimer (env w)) =
    Some {| on_fire := ReconnectAttempt;
            delay := (inject_Z (reconnectInterval (options (this w))) *
                      Qpower (3 # 2) 0)%Q;
            repeats := false |}.
Proof.
  intros Hs Hmax w' w''.
  assert (Hw' : w' = handleWebSocketOpen (set_ready s OPEN w)).
  { unfold w'. simpl. by rewrite Hs. }
  assert (Hs' : readyStateOf s w' = Some OPEN).
  { rewrite Hw'. unfold handleWebSocketOpen, updateConnectionStatus.
    rewrite emit_eq. unfold readyStateOf in *. simpl.
    rewrite lookup_alter_eq. by destruct (sockets (env w) !! s). }
  assert (Hw'' : w'' = handleWebSocketClose 1006 (set_ready s CLOSED w')).
  { unfold w''. simpl. by rewrite Hs'. }
  clearbody w' w''. subst w''. subst w'.
  rewrite handleWebSocketClose_eq.
  unfold handleWebSocketOpen, updateConnectionStatus. rewrite !emit_eq.
  unfold stopHeartbeat, scheduleReconnect. simpl.
  assert ((0 <? maxReconnectAttempts (options (this w))) = true) as ->
    by (by apply Z.ltb_lt).
  simpl. rewrite !lookup_insert_eq.
  repeat split; try done.
  by rewrite deliveries_app, deliveries_emit_obs.
Qed.

(** X1 at a fresh client after [connect()]. *)
Lemma open_resets_backoff_witness :
  readyStateOf 1 (step CallConnect sample_world) = Some CONNECTING /\
  0 < maxReconnectAttempts (options (this (step CallConnect sample_world))) /\
  reconnectAttempts
    (this (step (SocketOpens 1) (step CallConnect sample_world))) = 0.
Proof.
  split; [reflexivity|]. split; [reflexivity|].
  exact (proj1 (proj2
    (open_resets_backoff (step CallConnect sample_world) 1 eq_refl eq_refl))).
Defined.

(** ** Subscribing and unsubscribing *)

Lemma listeners_on event cb w name :
  inherited event = false ->
  listeners (this (on event cb w).2) !! name =
  if decide (event = name)
  then Some (default [] (listeners (this w) !! event) ++ [cb])
  else listeners (this w) !! name.
Proof. intros Hi. unfold on. rewrite Hi. simpl. by rewrite lookup_insert. Qed.

Lemma listeners_off event cb w name :
  inherited event = false ->
  default [] (listeners (this (off event cb w).2) !! name) =
  if decide (event = name)
  then filter (fun x => cb_id x <> cb_id cb) (default [] (listeners (this w) !! event))
  else default [] (listeners (this w) !! name).
Proof.
  intros Hi. unfold off. rewrite Hi. simpl.
  destruct (listeners (this w) !! event) as [cbs|] eqn:E; simpl.
  - rewrite lookup_insert. case_decide; [done|]. done.
  - case_decide; [by subst; rewrite E|done].
Qed.

Lemma trace_on event cb w : trace (env (on event cb w).2) = trace (env w).
Proof. unfold on. by destruct (inherited event). Qed.

Lemma trace_off event cb w : trace (env (off event cb w).2) = trace (env w).
Proof.
  unfold off. destruct (inherited event); [done|]. simpl.
  by destruct (listeners (this w) !! event).
Qed.

(** X2.  [on] appends: a publish after subscribing calls the callbacks that
    were registered before, in their order, and then the new one; nothing
    is deduplicated, so a callback registered twice is called twice.
    Subscriptions to other events are untouched.  Under a name that the
    listener table inherits from [Object.prototype] ([constructor],
    [toString], ...) [on] throws a [TypeError] and registers nothing. *)
Theorem subscribe_appends (w : world) (event : string) (cb : callback)
    (data : jsval) :
  let w' := (on event cb w).2 in
  (inherited event = true -> on event cb w = (Thrown "TypeError", w)) /\
  (inherited event = false ->
   (on event cb w).1 = Normal /\
   deliveries (trace (env (emit event data w'))) =
     deliveries (trace (env w)) ++
     map (fun x => (event, cb_id x, data))
         (default [] (listeners (this w) !! event) ++ [cb]) /\
   deliveries (trace (env (emit event data (on event cb w').2))) =
     deliveries (trace (env w)) ++
     map (fun x => (event, cb_id x, data))
         (default [] (listeners (this w) !! event) ++ [cb; cb]) /\
   (forall other, other <> event ->
      listeners (this w') !! other = listeners (this w) !! other)).
Proof.
  intros w'. subst w'. split; [by intros Hi; unfold on; rewrite Hi|].
  intros Hi. split; [by unfold on; rewrite Hi|]. split; [|split].
  - rewrite emit_eq, trace_observe_all, deliveries_app, deliveries_emit_obs.
    rewrite listeners_on, decide_True, trace_on by done. done.
  - rewrite emit_eq, trace_observe_all, deliveries_app, deliveries_emit_obs.
    rewrite !listeners_on, !decide_True, !trace_on by done. simpl default.
    by rewrite <- app_assoc.
  - intros other Hne. rewrite listeners_on by done.
    by rewrite decide_False.
Qed.

(** X2 at [subscribed_world]: a fourth subscriber of [metrics_update]. *)
Lemma subscribe_appends_witness :
  inherited "metrics_update" = false /\
  deliveries (trace (env (emit "metrics_update" sample_metrics
     (on "metrics_update" (subscriber 4 false) subscribed_world).2))) =
  deliveries (trace (env subscribed_world)) ++
  map (fun x => ("metrics_update", cb_id x, sample_metrics))
      (default [] (listeners (this subscribed_world) !! "metrics_update") ++
       [subscriber 4 false]).
Proof.
  split; [reflexivity|].
  exact (proj1 (proj2 (proj2 (subscribe_appends subscribed_world "metrics_update"
                         (subscriber 4 false) sample_metrics) eq_refl))).
Defined.

(** X3.  [off] removes every registration of the callback for that event,
    duplicates included, and keeps the other callbacks in their order; it
    does nothing for an event nobody subscribed to.  Unsubscribing a
    callback right after subscribing it, when it was not registered before,
    restores what a publish delivers.  Under a name that the listener
    table inherits from [Object.prototype], [off] throws a [TypeError] and
    changes nothing. *)
Theorem unsubscribe_removes_every_registration (w : world) (event : string)
    (cb : callback) (data : jsval) :
  let remaining :=
    filter (fun x => cb_id x <> cb_id cb)
           (default [] (listeners (this w) !! event)) in
  (inherited event = true -> off event cb w = (Thrown "TypeError", w)) /\
  (inherited event = false ->
   (off event cb w).1 = Normal /\
   deliveries (trace (env (emit event data (off event cb w).2))) =
     deliveries (trace (env w)) ++
     map (fun x => (event, cb_id x, data)) remaining /\
   (forall n, (event, n, data) ∈
              deliveries (emit_obs event data
                 (default [] (listeners (this (off event cb w).2) !! event))) ->
              n <> cb_id cb) /\
   (listeners (this w) !! event = None -> (off event cb w).2 = w) /\
   (Forall (fun x => cb_id x <> cb_id cb)
           (default [] (listeners (this w) !! event)) ->
    default [] (listeners (this (off event cb (on event cb w).2).2) !! event) =
    default [] (listeners (this w) !! event))).
Proof.
  intros remaining. split; [by intros Hi; unfold off; rewrite Hi|].
  intros Hi. split; [by unfold off; rewrite Hi|]. split; [|split; [|split]].
  - rewrite emit_eq, trace_observe_all, deliveries_app, deliveries_emit_obs.
    rewrite listeners_off, decide_True, trace_off by done. done.
  - intros n. rewrite deliveries_emit_obs, listeners_off, decide_True by done.
    intros Hin. apply list_elem_of_fmap in Hin as (x & [= ->] & Hx).
    by apply list_elem_of_filter in Hx as [? _].
  - intros Hnone. unfold off. by rewrite Hi, Hnone.
  - intros Hall. rewrite listeners_off, decide_True by done.
    rewrite listeners_on, decide_True by done. simpl default.
    rewrite filter_app.
    assert (filter (fun x => cb_id x <> cb_id cb) [cb] = []) as ->.
    { rewrite filter_cons_False; [done|]. by intros H. }
    rewrite app_nil_r. clear -Hall.
    induction Hall as [|x l Hx _ IH]; [done|].
    by rewrite filter_cons_True, IH.
Qed.

(** X3 at [subscribed_world]: the throwing subscriber is removed. *)
Lemma unsubscribe_removes_every_registration_witness :
  inherited "metrics_update" = false /\
  deliveries (trace (env (emit "metrics_update" sample_metrics
     (off "metrics_update" (subscriber 2 true) subscribed_world).2))) =
  deliveries (trace (env subscribed_world)) ++
  map (fun x => ("metrics_update", cb_id x, sample_metrics))
      (filter (fun x => cb_id x <> cb_id (subscriber 2 true))
         (default [] (listeners (this subscribed_world) !! "metrics_update"))).
Proof.
  split; [reflexivity|].
  exact (proj1 (proj2 (proj2 (unsubscribe_removes_every_registration
                  subscribed_world "metrics_update" (subscriber 2 true)
                  sample_metrics) eq_refl))).
Defined.

(** ** Inbound frames *)

Lemma str_is_eq v s : str_is v s = true -> v = JStr s.
Proof.
  destruct v; try done. simpl. intros H. by apply String.eqb_eq in H as ->.
Qed.

(** X4.  A frame that parses to a non-null value whose type has no handler
    (an unknown type, no type at all, or the heartbeat acknowledgement
    [pong]) is published, whole, to the subscribers of [update] and has no
    other effect: nothing is queued, stored or sent. *)
Theorem unhandled_frame_goes_to_update_only (data : jsval) (w : world) :
  nullish data = false ->
  handled_type (field "type" data) = false ->
  handleWebSocketMessage (Parsed data) w = emit "update" data w.
Proof.
  intros Hn Ht. unfold handled_type in Ht.
  repeat (apply orb_false_iff in Ht as [Ht ?]).
  unfold handleWebSocketMessage, try_log, processRealTimeUpdate.
  rewrite Hn.
  repeat match goal with H : str_is _ _ = false |- _ => rewrite H; clear H end.
  by destruct (str_is (field "type" data) "pong").
Qed.

(** X4 at a [pong] frame. *)
Lemma unhandled_frame_goes_to_update_only_witness :
  nullish (JObj [("type", JStr "pong")]) = false /\
  handled_type (field "type" (JObj [("type", JStr "pong")])) = false /\
  handleWebSocketMessage (Parsed (JObj [("type", JStr "pong")])) subscribed_world =
  emit "update" (JObj [("type", JStr "pong")]) subscribed_world.
Proof.
  split; [reflexivity|]. split; [reflexivity|].
  exact (unhandled_frame_goes_to_update_only (JObj [("type", JStr "pong")])
           subscribed_world eq_refl eq_refl).
Defined.

(** X5.  A frame whose text does not parse, a frame that parses to [null],
    and a frame of a type whose handler destructures the payload but that
    carries no payload all end in the [catch] of [handleWebSocketMessage]:
    one console error is logged and nothing else happens.  In particular
    such a frame is not published on [update]. *)
Theorem bad_frame_is_logged_and_dropped (f : frame) (w : world) :
  match f with
  | Malformed => True
  | Parsed data =>
      nullish data = true \/
      (destructuring_type (field "type" data) = true /\
       nullish (field "payload" data) = true)
  end ->
  handleWebSocketMessage f w =
  observe (ConsoleError "Failed to parse WebSocket message:") w.
Proof.
  destruct f as [|data]; [done|].
  unfold handleWebSocketMessage, try_log, processRealTimeUpdate.
  intros [Hn|[Ht Hp]]; [by rewrite Hn|].
  assert (Hn : nullish data = false).
  { destruct data; try done; simpl in Ht; done. }
  rewrite Hn. unfold destructuring_type in Ht.
  repeat (apply orb_true_iff in Ht as [Ht|Ht]);
    apply str_is_eq in Ht; rewrite Ht; cbn [str_is String.eqb Ascii.eqb Bool.eqb];
    unfold handleAgentStatusChange, handleTaskStatusChange, handleSystemAlert,
      handlePoolScaling, destructure, andThen, throw; by rewrite Hp.
Qed.

(** X5 at an [agent_status_change] frame without payload. *)
Lemma bad_frame_is_logged_and_dropped_witness :
  (nullish (JObj [("type", JStr "agent_status_change")]) = true \/
   (destructuring_type (field "type" (JObj [("type", JStr "agent_status_change")]))
      = true /\
    nullish (field "payload" (JObj [("type", JStr "agent_status_change")])) = true)) /\
  handleWebSocketMessage (Parsed (JObj [("type", JStr "agent_status_change")]))
    subscribed_world =
  observe (ConsoleError "Failed to parse WebSocket message:") subscribed_world.
Proof.
  assert (H : nullish (JObj [("type", JStr "agent_status_change")]) = true \/
   (destructuring_type (field "type" (JObj [("type", JStr "agent_status_change")]))
      = true /\
    nullish (field "payload" (JObj [("type", JStr "agent_status_change")])) = true))
    by (right; split; reflexivity).
  split; [exact H|].
  exact (bad_frame_is_logged_and_dropped
           (Parsed (JObj [("type", JStr "agent_status_change")])) subscribed_world H).
Defined.

(** ** Notifications raised by inbound frames *)

Lemma stored_emit event data w :
  getStoredNotifications (emit event data w) = getStoredNotifications w.
Proof. by rewrite emit_eq. Qed.

Lemma listeners_emit event data w :
  listeners (this (emit event data w)) = listeners (this w).
Proof. by rewrite emit_eq. Qed.

Lemma showNotification_eq m t o w :
  toasts_shown w = true ->
  showNotification m t o w =
  (Normal,
   emit "notification" (notification_of (clock (env w)) m t o)
     (storeNotification (notification_of (clock (env w)) m t o)
        (if dashboard (page (env w)) then
           observe (Toast (if String.eqb t "error" then "error"
                           else if String.eqb t "success" then "success"
                           else "info") m) w
         else w))).
Proof.
  unfold toasts_shown, showNotification. intros H.
  apply negb_true_iff in H. by rewrite H.
Qed.

Lemma showNotification_throws m t o w :
  toasts_shown w = false -> showNotification m t o w = (Thrown "Error", w).
Proof.
  unfold toasts_shown, showNotification. intros H.
  apply negb_false_iff in H. by rewrite H.
Qed.

Lemma stored_showNotification m t o w :
  toasts_shown w = true ->
  getStoredNotifications (showNotification m t o w).2 =
  take 50 (notification_of (clock (env w)) m t o :: getStoredNotifications w).
Proof.
  intros H. rewrite showNotification_eq by done. simpl.
  rewrite stored_emit, stored_after_store. by destruct (dashboard _).
Qed.

Lemma deliveries_showNotification m t o w :
  toasts_shown w = true ->
  deliveries (trace (env (showNotification m t o w).2)) =
  deliveries (trace (env w)) ++
  map (fun cb => ("notification", cb_id cb, notification_of (clock (env w)) m t o))
      (default [] (listeners (this w) !! "notification")).
Proof.
  intros H. rewrite showNotification_eq by done. cbn [snd].
  rewrite emit_eq, trace_observe_all, deliveries_app, deliveries_emit_obs.
  unfold storeNotification, observe. rewrite trace_observe_all, deliveries_app.
  destruct (dashboard _); simpl; rewrite ?deliveries_app; simpl;
    rewrite ?app_nil_r; reflexivity.
Qed.

Lemma listeners_showNotification m t o w :
  listeners (this (showNotification m t o w).2) = listeners (this w).
Proof.
  unfold showNotification. destruct (dashboard _ && toastThrows _); [done|].
  cbn [snd]. rewrite listeners_emit. by destruct (dashboard _).
Qed.

Lemma updateQueue_emit event data w :
  updateQueue (this (emit event data w)) = updateQueue (this w).
Proof. by rewrite emit_eq. Qed.

Lemma stored_queueUpdate u w :
  getStoredNotifications (queueUpdate u w) = getStoredNotifications w.
Proof. unfold queueUpdate. simpl. by destruct (updateTimer (this w)). Qed.

Lemma listeners_queueUpdate u w :
  listeners (this (queueUpdate u w)) = listeners (this w).
Proof. unfold queueUpdate. simpl. by destruct (updateTimer (this w)). Qed.

Lemma trace_queueUpdate u w : trace (env (queueUpdate u w)) = trace (env w).
Proof. unfold queueUpdate. simpl. by destruct (updateTimer (this w)). Qed.

Lemma updateQueue_queueUpdate u w :
  updateQueue (this (queueUpdate u w)) = updateQueue (this w) ++ [u].
Proof. unfold queueUpdate. simpl. by destruct (updateTimer (this w)). Qed.

(** What a handler does after its checks: [showNotification], then
    [emit]. *)
Lemma notify_then_emit m t opts event data w :
  toasts_shown w = true ->
  let r := (showNotification m t opts ;; lift (emit event data)) w in
  r.1 = Normal /\
  getStoredNotifications r.2 =
    take 50 (notification_of (clock (env w)) m t opts :: getStoredNotifications w) /\
  published w r.2 (notification_of (clock (env w)) m t opts) event data.
Proof.
  intros H r. subst r. unfold andThen, lift.
  pose proof (stored_showNotification m t opts w H) as Hs.
  pose proof (deliveries_showNotification m t opts w H) as Hd.
  pose proof (listeners_showNotification m t opts w) as Hl.
  rewrite (showNotification_eq m t opts w H) in *. cbn [fst snd] in *.
  split; [done|]. split.
  - by rewrite stored_emit, Hs.
  - unfold published.
    rewrite emit_eq, trace_observe_all, deliveries_app, deliveries_emit_obs.
    rewrite Hd, Hl. by rewrite <- app_assoc.
Qed.

Lemma emit_only_published event data w :
  only_published w (emit event data w) event data.
Proof.
  split; [by rewrite stored_emit|].
  by rewrite emit_eq, trace_observe_all, deliveries_app, deliveries_emit_obs.
Qed.

(** X6.  A [system_alert] with a payload, on a page whose dashboard (if
    any) shows its toasts, does not throw and records exactly one
    notification at the head of the store (which stays capped at 50): its
    type is "error" for the levels [error] and [critical], "warning" for
    [warning] and "info" for anything else, and its duration is 0 (no
    auto-hide) for [critical] only.  The subscribers of [notification] are
    called with it first, then those of [system_alert] with the payload.
    When the dashboard cannot show the toast, the handler throws before
    anything is recorded or published. *)
Theorem system_alert_is_recorded_by_severity (p : jsval) (w : world) :
  nullish p = false ->
  printable (field "message" p) = true ->
  let level := field "level" p in
  let severity :=
    if str_is level "error" || str_is level "critical" then "error"
    else if str_is level "warning" then "warning" else "info" in
  let duration := JNum (if str_is level "critical" then 0 else 8000) in
  let message := ("System Alert: " ++ js_to_string (field "message" p))%string in
  let r := handleSystemAlert p w in
  (toasts_shown w = false -> r = (Thrown "Error", w)) /\
  (toasts_shown w = true ->
   r.1 = Normal /\
   recorded w r.2 message severity "alert-triangle" duration /\
   published w r.2
     (notification_of (clock (env w)) message severity
        [("icon", JStr "alert-triangle"); ("duration", duration);
         ("details", field "details" p)])
     "system_alert" p).
Proof.
  intros Hn _ level severity duration message r.
  unfold r, handleSystemAlert, destructure. rewrite Hn.
  fold level. fold severity. fold duration. fold message.
  split.
  - intros H. unfold andThen. by rewrite showNotification_throws.
  - intros H.
    destruct (notify_then_emit message severity
                [("icon", JStr "alert-triangle"); ("duration", duration);
                 ("details", field "details" p)] "system_alert" p w H)
      as (Hok & Hs & Hp).
    split; [done|]. split; [|done].
    eexists. split; [exact Hs|]. by repeat split.
Qed.

(** X6 at a critical alert. *)
Lemma system_alert_is_recorded_by_severity_witness :
  nullish critical_alert = false /\
  printable (field "message" critical_alert) = true /\
  toasts_shown sample_world = true /\
  recorded sample_world (handleSystemAlert critical_alert sample_world).2
    "System Alert: disk full" "error" "alert-triangle" (JNum 0).
Proof.
  split; [reflexivity|]. split; [reflexivity|]. split; [reflexivity|].
  exact (proj1 (proj2 (proj2
    (system_alert_is_recorded_by_severity critical_alert sample_world
       eq_refl eq_refl) eq_refl))).
Defined.

(** X7.  An [agent_status_change] with a payload first updates the badges
    of the agent in the document.  When that update throws (the selector
    built from the agent id does not parse, or a badge is found and the
    new status is not a string), the handler throws with nothing recorded
    and no subscriber called.  Otherwise it records a notification exactly
    when the agent failed (type "warning") or recovered from [failed] to
    [idle] (type "success"), and any other transition leaves the store as
    it was; in every such case the subscribers of [agent_status_change] are
    called with the payload, after those of [notification] if there was
    one. *)
Theorem agent_status_notifies_failure_and_recovery (p : jsval) (w : world) :
  nullish p = false ->
  printable (field "agent_id" p) = true ->
  toasts_shown w = true ->
  let agent_id := field "agent_id" p in
  let new_status := field "new_status" p in
  let failed := str_is new_status "failed" in
  let recovered := str_is (field "old_status" p) "failed" && str_is new_status "idle" in
  let agent := js_to_string agent_id in
  let r := handleAgentStatusChange p w in
  (forall e, (updateAgentStatusInUI agent_id new_status w).1 = Thrown e ->
     r = (Thrown e, w)) /\
  ((updateAgentStatusInUI agent_id new_status w).1 = Normal ->
   r.1 = Normal /\
   (failed = true ->
    recorded w r.2 ("Agent " ++ agent ++ " has failed")%string "warning"
      "alert-triangle" JUndef /\
    published w r.2
      (notification_of (clock (env w)) ("Agent " ++ agent ++ " has failed")%string
         "warning" [("icon", JStr "alert-triangle")])
      "agent_status_change" p) /\
   (failed = false -> recovered = true ->
    recorded w r.2 ("Agent " ++ agent ++ " has recovered")%string "success"
      "check-circle" JUndef /\
    published w r.2
      (notification_of (clock (env w)) ("Agent " ++ agent ++ " has recovered")%string
         "success" [("icon", JStr "check-circle")])
      "agent_status_change" p) /\
   (failed = false -> recovered = false ->
    only_published w r.2 "agent_status_change" p)).
Proof.
  intros Hn _ Ht agent_id new_status failed recovered agent r.
  unfold r, handleAgentStatusChange, destructure. rewrite Hn.
  fold agent_id. fold new_status. fold failed. fold recovered. fold agent.
  clearbody failed recovered agent.
  pose proof (updateAgentStatusInUI_world agent_id new_status w) as Hw.
  destruct (updateAgentStatusInUI agent_id new_status w) as [[|e0] w0] eqn:Hu;
    simpl in Hw; subst w0;
    [rewrite (andThen_normal _ _ _ _ Hu)|rewrite (andThen_thrown _ _ _ _ _ Hu)].
  - split; [done|]. intros _.
    destruct failed.
    + destruct (notify_then_emit ("Agent " ++ agent ++ " has failed")%string
                  "warning" [("icon", JStr "alert-triangle")]
                  "agent_status_change" p w Ht) as (Hok & Hs & Hp).
      split; [done|]. split; [|done]. intros _. split; [|done].
      eexists. split; [exact Hs|]. by repeat split.
    + destruct recovered.
      * destruct (notify_then_emit ("Agent " ++ agent ++ " has recovered")%string
                    "success" [("icon", JStr "check-circle")]
                    "agent_status_change" p w Ht) as (Hok & Hs & Hp).
        split; [done|]. split; [done|]. split; [|done]. intros _ _. split; [|done].
        eexists. split; [exact Hs|]. by repeat split.
      * split; [done|]. split; [done|]. split; [done|]. intros _ _.
        apply emit_only_published.
  - split; [by intros e [= ->]|done].
Qed.

(** X7 on a page that shows agent [a1] with a badge: the failure is
    recorded. *)
Lemma agent_status_notifies_failure_and_recovery_witness :
  nullish failed_agent = false /\
  printable (field "agent_id" failed_agent) = true /\
  toasts_shown (new_client default_options agent_page ∅) = true /\
  (updateAgentStatusInUI (field "agent_id" failed_agent)
     (field "new_status" failed_agent)
     (new_client default_options agent_page ∅)).1 = Normal /\
  recorded (new_client default_options agent_page ∅)
    (handleAgentStatusChange failed_agent (new_client default_options agent_page ∅)).2
    "Agent a1 has failed" "warning" "alert-triangle" JUndef.
Proof.
  split; [reflexivity|]. split; [reflexivity|]. split; [reflexivity|].
  split; [reflexivity|].
  exact (proj1 (proj1 (proj2 (proj2
    (agent_status_notifies_failure_and_recovery failed_agent
       (new_client default_options agent_page ∅) eq_refl eq_refl eq_refl)
    eq_refl)) eq_refl)).
Defined.



(** X9.  A [pool_scaling] frame with a payload, on a page whose dashboard
    (if any) shows its toasts, records one "info" notification, appends one
    dashboard refresh to the update queue and then calls the subscribers
    of [pool_scaling]; the queue keeps what it held.  When the dashboard
    cannot show the toast, the handler throws before anything is recorded,
    queued or published. *)
Theorem pool_scaling_notifies_and_refreshes (p : jsval) (w : world) :
  nullish p = false ->
  printable (field "pool_name" p) = true ->
  printable (field "action" p) = true ->
  printable (field "agent_count" p) = true ->
  let message :=
    (js_to_string (field "pool_name" p) ++ " pool " ++
     js_to_string (field "action" p) ++ ": now " ++
     js_to_string (field "agent_count" p) ++ " agents")%string in
  let r := handlePoolScaling p w in
  (toasts_shown w = false -> r = (Thrown "Error", w)) /\
  (toasts_shown w = true ->
   r.1 = Normal /\
   recorded w r.2 message "info" "users" JUndef /\
   updateQueue (this r.2) = updateQueue (this w) ++ [PoolRefresh] /\
   published w r.2
     (notification_of (clock (env w)) message "info" [("icon", JStr "users")])
     "pool_scaling" p).
Proof.
  intros Hn _ _ _ message r.
  unfold r, handlePoolScaling, destructure. rewrite Hn. fold message.
  clearbody message. split.
  - intros H. unfold andThen. by rewrite showNotification_throws.
  - intros H. unfold andThen, lift.
    pose proof (stored_showNotification message "info" [("icon", JStr "users")] w H) as Hs.
    pose proof (deliveries_showNotification message "info" [("icon", JStr "users")] w H) as Hd.
    pose proof (listeners_showNotification message "info" [("icon", JStr "users")] w) as Hl.
    assert (Hq : updateQueue (this (showNotification message "info"
                                      [("icon", JStr "users")] w).2) =
                 updateQueue (this w)).
    { rewrite showNotification_eq by done. cbn [snd].
      rewrite updateQueue_emit. by destruct (dashboard _). }
    rewrite (showNotification_eq message "info" [("icon", JStr "users")] w H) in *.
    cbn [fst snd] in *.
    split; [done|]. split; [|split].
    + eexists. split.
      * by rewrite stored_emit, stored_queueUpdate, Hs.
      * by repeat split.
    + by rewrite updateQueue_emit, updateQueue_queueUpdate, Hq.
    + unfold published.
      rewrite emit_eq, trace_observe_all, deliveries_app, deliveries_emit_obs.
      rewrite trace_queueUpdate, listeners_queueUpdate, Hd, Hl.
      by rewrite <- app_assoc.
Qed.

(** X9 at a scale-up of the healthcare pool. *)
Lemma pool_scaling_notifies_and_refreshes_witness :
  nullish pool_scaled_up = false /\
  printable (field "pool_name" pool_scaled_up) = true /\
  printable (field "action" pool_scaled_up) = true /\
  printable (field "agent_count" pool_scaled_up) = true /\
  toasts_shown queued_world = true /\
  recorded queued_world (handlePoolScaling pool_scaled_up queued_world).2
    "healthcare pool scaled up: now 5 agents" "info" "users" JUndef /\
  updateQueue (this (handlePoolScaling pool_scaled_up queued_world).2) =
  updateQueue (this queued_world) ++ [PoolRefresh].
Proof.
  split; [reflexivity|]. split; [reflexivity|]. split; [reflexivity|].
  split; [reflexivity|]. split; [reflexivity|].
  pose proof (proj2 (pool_scaling_notifies_and_refreshes pool_scaled_up
                       queued_world eq_refl eq_refl eq_refl eq_refl) eq_refl)
    as (_ & Hrec & Hq & _).
  exact (conj Hrec Hq).
Defined.

(** ** Closing *)

(** X10.  A close with the clean code 1000, whoever initiated it and
    however many attempts remain, never schedules a reconnect: the counter
    keeps its value, the client is marked disconnected, the heartbeat is
    stopped, the subscribers of [disconnected] are called and a polling
    interval is started and tracked. *)
Theorem clean_close_falls_back_to_polling (w : world) :
  reachable w ->
  let w' := handleWebSocketClose 1000 w in
  reconnectAttempts (this w') = reconnectAttempts (this w) /\
  isConnected (this w') = false /\
  heartbeatTimer (this w') = None /\
  (forall h, heartbeatTimer (this w) = Some h -> timers (env w') !! h = None) /\
  pollingInterval (this w') = Some (nextTimer (env w)) /\
  timers (env w') !! nextTimer (env w) =
    Some {| on_fire := PollMetrics; delay := inject_Z 15000; repeats := true |} /\
  indicator (env w') = "polling" /\
  (forall h t, timers (env w') !! h = Some t -> on_fire t = ReconnectAttempt ->
     timers (env w) !! h = Some t) /\
  deliveries (trace (env w')) =
    deliveries (trace (env w)) ++
    map (fun cb => ("disconnected", cb_id cb, JUndef))
        (default [] (listeners (this w) !! "disconnected")).
Proof.
  intros Hr w'. pose proof (reachable_wf w Hr) as Hwf.
  unfold w'. rewrite handleWebSocketClose_eq. simpl.
  unfold startPollingFallback, stopHeartbeat. simpl.
  destruct (heartbeatTimer (this w)) as [hb|] eqn:Hhb; simpl;
    rewrite ?lookup_insert_eq; repeat split; try done;
    try (intros h t Ht Hk; lookup_cases; done);
    try (by rewrite deliveries_app, deliveries_emit_obs).
  intros h [= ->].
  destruct (wf_heartbeat w Hwf h Hhb) as (t & Ht & _).
  pose proof (wf_fresh w Hwf h t Ht).
  rewrite lookup_insert_ne by lia. apply lookup_delete_eq.
Qed.

(** X10 at a connected client whose server closes cleanly. *)
Lemma clean_close_falls_back_to_polling_witness :
  reachable (run [CallConnect; SocketOpens 1] sample_world) /\
  reconnectAttempts
    (this (handleWebSocketClose 1000 (run [CallConnect; SocketOpens 1] sample_world))) =
  reconnectAttempts (this (run [CallConnect; SocketOpens 1] sample_world)).
Proof.
  assert (Hr : reachable (run [CallConnect; SocketOpens 1] sample_world))
    by (apply reachable_run, reach_new).
  split; [exact Hr|].
  exact (proj1 (clean_close_falls_back_to_polling _ Hr)).
Defined.

(** ** Timers that are started twice *)

(** X11.  [startPollingFallback] does not stop an interval that is already
    running: when the client falls back to polling while it tracks a
    polling interval (it does from construction on), the old interval
    keeps running next to the new one, only the new one is tracked, and
    teardown cancels only that one. *)
Theorem polling_fallback_leaks_running_interval (w : world) (h : positive) :
  reachable w ->
  pollingInterval (this w) = Some h ->
  let w' := startPollingFallback w in
  h ∈ pending PollMetrics w' /\
  nextTimer (env w) ∈ pending PollMetrics w' /\
  h <> nextTimer (env w) /\
  pollingInterval (this w') = Some (nextTimer (env w)) /\
  h ∈ pending PollMetrics (cleanup w') /\
  nextTimer (env w) ∉ pending PollMetrics (cleanup w').
Proof.
  intros Hr Hp w'. pose proof (reachable_wf w Hr) as Hwf.
  destruct (wf_polling w Hwf h Hp) as (t & Ht & Hk & _).
  pose proof (wf_fresh w Hwf h t Ht) as Hlt.
  assert (Hne : h <> nextTimer (env w)) by lia.
  assert (Hwf' : wf w') by by apply wf_startPollingFallback.
  assert (Hold : timers (env w') !! h = Some t).
  { unfold w', startPollingFallback. simpl. by rewrite lookup_insert_ne. }
  assert (Hnew : pollingInterval (this w') = Some (nextTimer (env w))) by done.
  split; [apply elem_of_pending; eauto|].
  split; [apply elem_of_pending; unfold w', startPollingFallback; simpl;
          eexists; by rewrite lookup_insert_eq|].
  split; [done|]. split; [done|]. split.
  - apply elem_of_pending. exists t. split; [|done].
    rewrite timers_cleanup. rewrite bool_decide_eq_false_2; [done|].
    intros [Hd|[Hd|Hd]].
    + destruct (wf_heartbeat w' Hwf' h Hd) as (t' & Ht' & Hk' & _). congruence.
    + congruence.
    + destruct (wf_update w' Hwf' h Hd) as [_ Hkind].
      destruct (Hkind t Hold) as [Hk' _]. congruence.
  - rewrite elem_of_pending. intros (t' & Ht' & _).
    rewrite timers_cleanup, bool_decide_eq_true_2 in Ht'; [done|].
    right. by left.
Qed.

(** X11 at a fresh client, which polls from construction. *)
Lemma polling_fallback_leaks_running_interval_witness :
  reachable sample_world /\
  pollingInterval (this sample_world) = Some 1%positive /\
  1%positive ∈ pending PollMetrics (cleanup (startPollingFallback sample_world)).
Proof.
  assert (Hr : reachable sample_world) by apply reach_new.
  split; [exact Hr|]. split; [reflexivity|].
  exact (proj1 (proj2 (proj2 (proj2 (proj2
    (polling_fallback_leaks_running_interval sample_world 1 Hr eq_refl)))))).
Defined.

(** X12.  [startHeartbeat] does not stop a heartbeat that is already
    running: when a second socket opens while a heartbeat is tracked, the
    old heartbeat interval keeps running untracked, and neither the next
    close nor teardown cancels it. *)
Theorem second_open_leaks_heartbeat (w : world) (h s : positive) :
  reachable w ->
  heartbeatTimer (this w) = Some h ->
  readyStateOf s w = Some CONNECTING ->
  let w' := step (SocketOpens s) w in
  h ∈ pending HeartbeatPing w' /\
  heartbeatTimer (this w') = Some (nextTimer (env w)) /\
  h <> nextTimer (env w) /\
  (forall code, h ∈ pending HeartbeatPing (handleWebSocketClose code w')) /\
  h ∈ pending HeartbeatPing (cleanup w').
Proof.
  intros Hr Hh Hs w'. pose proof (reachable_wf w Hr) as Hwf.
  destruct (wf_heartbeat w Hwf h Hh) as (t & Ht & Hk & _).
  pose proof (wf_fresh w Hwf h t Ht) as Hlt.
  assert (Hne : h <> nextTimer (env w)) by lia.
  assert (Hwf' : wf w') by (by apply wf_step).
  assert (Hw' : w' = handleWebSocketOpen (set_ready s OPEN w)).
  { unfold w'. simpl. by rewrite Hs. }
  assert (Hold : timers (env w') !! h = Some t).
  { rewrite Hw'. unfold handleWebSocketOpen, updateConnectionStatus.
    rewrite emit_eq. simpl. by rewrite lookup_insert_ne. }
  assert (Hnew : heartbeatTimer (this w') = Some (nextTimer (env w))).
  { rewrite Hw'. unfold handleWebSocketOpen, updateConnectionStatus.
    by rewrite emit_eq. }
  split; [apply elem_of_pending; eauto|]. split; [done|]. split; [done|]. split.
  - intros code. apply elem_of_pending. exists t. split; [|done].
    rewrite handleWebSocketClose_eq. simpl.
    unfold stopHeartbeat, scheduleReconnect, startPollingFallback. simpl.
    rewrite Hnew. pose proof (wf_fresh w' Hwf' h t Hold) as Hlt'.
    case_match; simpl; rewrite lookup_insert_ne by lia;
      by rewrite lookup_delete_ne.
  - apply elem_of_pending. exists t. split; [|done].
    rewrite timers_cleanup. rewrite bool_decide_eq_false_2; [done|].
    intros [Hd|[Hd|Hd]].
    + congruence.
    + destruct (wf_polling w' Hwf' h Hd) as (t' & Ht' & Hk' & _). congruence.
    + destruct (wf_update w' Hwf' h Hd) as [_ Hkind].
      destruct (Hkind t Hold) as [Hk' _]. congruence.
Qed.

(** X12 at [overlapping_world], where socket 2 is still connecting. *)
Lemma second_open_leaks_heartbeat_witness :
  reachable overlapping_world /\
  heartbeatTimer (this overlapping_world) = Some 4%positive /\
  readyStateOf 2 overlapping_world = Some CONNECTING /\
  4%positive ∈ pending HeartbeatPing (cleanup (step (SocketOpens 2) overlapping_world)).
Proof.
  assert (Hr : reachable overlapping_world) by (apply reachable_run, reach_new).
  split; [exact Hr|]. split; [reflexivity|]. split; [reflexivity|].
  exact (proj2 (proj2 (proj2 (proj2
    (second_open_leaks_heartbeat overlapping_world 4 2 Hr eq_refl eq_refl))))).
Defined.

(** ** The notification log *)

(** X13.  [clearNotifications] empties the log, whatever it held, and
    shows a count of 0; the next notification recorded then makes a log of
    exactly one entry and shows a count of 1.  Neither method touches
    another key of [localStorage]. *)
Theorem clear_leaves_an_empty_log (w : world) (n : jsval) :
  let cleared := clearNotifications w in
  getStoredNotifications cleared = [] /\
  last (trace (env cleared)) = Some (NotificationCount 0) /\
  length (getStoredNotifications (storeNotification n cleared)) = 1%nat /\
  last (trace (env (storeNotification n cleared))) = Some (NotificationCount 1) /\
  (forall k, k <> notifications_key ->
     localStorage (env cleared) !! k = localStorage (env w) !! k /\
     localStorage (env (storeNotification n w)) !! k = localStorage (env w) !! k).
Proof.
  intros cleared.
  assert (Hc : getStoredNotifications cleared = []).
  { unfold cleared, getStoredNotifications, clearNotifications. simpl.
    by rewrite lookup_delete_eq. }
  split; [done|]. split.
  { unfold cleared, clearNotifications, observe, observe_all. simpl.
    by rewrite last_snoc. }
  split; [by rewrite stored_after_store, Hc|]. split.
  { unfold storeNotification, observe, observe_all. simpl.
    rewrite last_snoc. by rewrite Hc. }
  intros k Hk. unfold cleared, clearNotifications, storeNotification. simpl.
  by rewrite lookup_delete_ne, lookup_insert_ne.
Qed.

(** X13 at a client whose store holds a full log and another key. *)
Lemma clear_leaves_an_empty_log_witness :
  "theme" <> notifications_key /\
  length (getStoredNotifications stocked_world) = 50%nat /\
  localStorage (env (clearNotifications stocked_world)) !! "theme" =
  localStorage (env stocked_world) !! "theme".
Proof.
  assert (H : "theme" <> notifications_key) by discriminate.
  split; [exact H|]. split; [reflexivity|].
  exact (proj1 (proj2 (proj2 (proj2 (proj2
    (clear_leaves_an_empty_log stocked_world JNull)))) "theme" H)).
Defined.

(** ** What the handling of a frame cannot touch *)

(** A property kept by [emit], by local observations, by writes to
    [localStorage] and by [queueUpdate] is kept by the handling of any
    inbound frame. *)
Section FrameInvariant.
Variable P : world -> Prop.
Hypothesis P_emit : forall event data w, P w -> P (emit event data w).
Hypothesis P_observe : forall o w, local_observation o -> P w -> P (observe o w).
Hypothesis P_storage :
  forall m w, P w -> P (upd_env (set_localStorage m) w).
Hypothesis P_queueUpdate : forall u w, P w -> P (queueUpdate u w).

Lemma showNotification_inv m t o : keeps P (showNotification m t o).
Proof.
  intros w H. unfold showNotification.
  destruct (dashboard _ && toastThrows _); [done|]. cbn [snd].
  apply P_emit.
  unfold storeNotification. apply P_observe; [done|]. apply P_storage.
  destruct (dashboard _); [by apply P_observe|done].
Qed.

Lemma processRealTimeUpdate_inv data w :
  P w -> P (processRealTimeUpdate data w).2.
Proof.
  revert w. change (keeps P (processRealTimeUpdate data)).
  destruct (keeps_handlers P showNotification_inv P_queueUpdate P_emit
              (field "payload" data)) as (Hagent & Htask & Halert & Hpool).
  unfold processRealTimeUpdate.
  destruct (nullish data); [apply keeps_throw|].
  apply keeps_andThen; [|apply keeps_lift; auto].
  repeat case_match; auto using keeps_ret.
  apply keeps_lift. intros w Hw. unfold handleMetricsUpdate.
  by apply P_emit, P_queueUpdate.
Qed.

Lemma handleWebSocketMessage_inv f w : P w -> P (handleWebSocketMessage f w).
Proof.
  intros H. unfold handleWebSocketMessage, try_log.
  destruct f as [|data].
  - simpl. by apply P_observe.
  - pose proof (processRealTimeUpdate_inv data w H) as H'.
    destruct (processRealTimeUpdate data w) as [[|e] w']; [done|].
    by apply P_observe.
Qed.
End FrameInvariant.

Lemma frames_sent_app a b : frames_sent (a ++ b) = frames_sent a ++ frames_sent b.
Proof. apply omap_app. Qed.

Lemma frames_sent_emit_obs event data cbs : frames_sent (emit_obs event data cbs) = [].
Proof.
  induction cbs as [|cb cbs IH]; [done|].
  simpl. by destruct (cb_throws cb data).
Qed.

(** X14.  Handling an inbound frame, whatever its content, never changes
    the connection: the socket, the connected flag, the attempt counter,
    the heartbeat and polling handles, the ready states, the status shown
    and the time of the last heartbeat (a [pong] does not update it) stay
    as they were, and the client sends nothing in reply. *)
Theorem frame_leaves_connection_alone (f : frame) (w : world) :
  connection (handleWebSocketMessage f w) = connection w /\
  frames_sent (trace (env (handleWebSocketMessage f w))) =
  frames_sent (trace (env w)).
Proof.
  apply (handleWebSocketMessage_inv
           (fun w' => connection w' = connection w /\
                      frames_sent (trace (env w')) = frames_sent (trace (env w))));
    try done.
  - intros event data w0 [Hc Hs]. rewrite emit_eq. split; [done|].
    by rewrite trace_observe_all, frames_sent_app, frames_sent_emit_obs, app_nil_r.
  - intros o w0 Ho [Hc Hs]. split; [done|].
    unfold observe. rewrite trace_observe_all, frames_sent_app, Hs.
    destruct o; try done; apply app_nil_r.
  - intros u w0 [Hc Hs]. unfold queueUpdate. simpl.
    by destruct (updateTimer (this w0)).
Qed.

(** ** After teardown *)

Lemma emit_without_listeners event data w :
  listeners (this w) = ∅ -> emit event data w = w.
Proof. intros H. unfold emit. by rewrite H, lookup_empty. Qed.

Lemma deliveries_Invoked_nil l : deliveries (Invoked <$> l) = [].
Proof. induction l as [|u l IH]; [done|]. exact IH. Qed.

Lemma silent_step e w :
  not_subscription e ->
  listeners (this w) = ∅ ->
  listeners (this (step e w)) = ∅ /\
  deliveries (trace (env (step e w))) = deliveries (trace (env w)).
Proof.
  intros He Hl.
  destruct e as [| | | | | | |s f| | | | | | | | |]; try done; simpl.
  all: try (solve
    [ destruct (readyStateOf s w) as [[]|]; try done;
      apply (handleWebSocketMessage_inv
               (fun w' => listeners (this w') = ∅ /\
                          deliveries (trace (env w')) = deliveries (trace (env w))));
      try done;
      [ intros event data w0 [H1 H2]; by rewrite emit_without_listeners
      | intros o w0 Ho [H1 H2]; split; [done|];
        unfold observe; rewrite trace_observe_all, deliveries_app, H2;
        destruct o; try done; apply app_nil_r
      | intros u w0 [H1 H2]; unfold queueUpdate; simpl;
        by destruct (updateTimer (this w0)) ] ]).
  all: unfold cleanup, stopPollingFallback;
    repeat first
      [ progress unfold_methods
      | progress (rewrite ?processUpdateQueue_eq in * )
      | rewrite emit_without_listeners by (simpl; done)
      | progress simpl in *
      | progress simplify_eq
      | case_match ];
    rewrite ?Hl, ?lookup_empty in *; simplify_eq;
    split; try done;
    repeat (rewrite ?deliveries_app, ?deliveries_Invoked_nil; simpl;
            rewrite ?app_nil_r);
    try done.
Qed.

(** X15.  Teardown drops every subscription, and nothing short of a new
    subscription brings one back: whatever happens after [cleanup] (socket
    events, timers that were left pending, polling results, calls of the
    public methods other than [on]), no subscriber is called again.  The
    [disconnected] event of the close that teardown itself triggers is
    therefore delivered to nobody. *)
Theorem teardown_silences_subscribers (w : world) (es : list event) :
  Forall not_subscription es ->
  let w' := run es (cleanup w) in
  listeners (this w') = ∅ /\
  deliveries (trace (env w')) = deliveries (trace (env w)).
Proof.
  intros Hes w'. unfold w'.
  assert (H0 : listeners (this (cleanup w)) = ∅ /\
               deliveries (trace (env (cleanup w))) = deliveries (trace (env w))).
  { unfold cleanup, stopHeartbeat, stopPollingFallback, ws_close, clearTimer.
    repeat (case_match; simpl in *; simplify_eq); done. }
  revert H0. generalize (cleanup w). clear w'.
  induction Hes as [|e es He _ IH]; intros w0 H0; [done|].
  simpl. apply IH. destruct H0 as [Hl Hd].
  destruct (silent_step e w0 He Hl) as [Hl' Hd']. split; [done|congruence].
Qed.

(** X15 at [subscribed_world] after it connected: the close that follows
    teardown and a later polling result reach no subscriber. *)
Lemma teardown_silences_subscribers_witness :
  Forall not_subscription
    [SocketCloses 1 1000; TimerFires 1; FetchSettles (FetchJson sample_metrics)] /\
  deliveries
    (trace (env (run [SocketCloses 1 1000; TimerFires 1;
                      FetchSettles (FetchJson sample_metrics)]
                   (cleanup (run [CallConnect; SocketOpens 1] subscribed_world))))) =
  deliveries (trace (env (run [CallConnect; SocketOpens 1] subscribed_world))).
Proof.
  assert (H : Forall not_subscription
    [SocketCloses 1 1000; TimerFires 1; FetchSettles (FetchJson sample_metrics)])
    by (repeat constructor).
  split; [exact H|].
  exact (proj2 (teardown_silences_subscribers
                  (run [CallConnect; SocketOpens 1] subscribed_world) _ H)).
Defined.

Lemma no_flush_after_cleanup w : wf w -> pending FlushQueue (cleanup w) = [].
Proof.
  intros Hwf. apply pending_nil. intros h t. rewrite timers_cleanup.
  case_bool_decide as Hd; [done|]. intros Ht Hk.
  apply Hd. right. right. by eapply wf_flush.
Qed.

(** X16.  [cleanup] cancels the flush timer but keeps its handle in
    [this.updateTimer] and keeps the buffer.  From then on [queueUpdate]
    sees a handle and schedules nothing: updates enqueued after teardown
    pile up behind the ones that were pending and no flush timer is ever
    pending for them. *)
Theorem updates_after_teardown_are_never_flushed
    (w : world) (h : positive) (us : list update_fn) :
  reachable w ->
  updateTimer (this w) = Some h ->
  let w' := foldl (fun w u => queueUpdate u w) (cleanup w) us in
  updateTimer (this w') = Some h /\
  updateQueue (this w') = updateQueue (this w) ++ us /\
  timers (env w') = timers (env (cleanup w)) /\
  pending FlushQueue w' = [].
Proof.
  intros Hr Hu w'.
  assert (Hc : updateTimer (this (cleanup w)) = Some h /\
               updateQueue (this (cleanup w)) = updateQueue (this w)).
  { unfold cleanup, stopHeartbeat, stopPollingFallback, ws_close, clearTimer.
    repeat (case_match; simpl in *; simplify_eq); done. }
  assert (Hfold : forall w0, updateTimer (this w0) = Some h ->
            let w1 := foldl (fun w u => queueUpdate u w) w0 us in
            updateTimer (this w1) = Some h /\
            updateQueue (this w1) = updateQueue (this w0) ++ us /\
            timers (env w1) = timers (env w0)).
  { clear. induction us as [|u us IH] using rev_ind; intros w0 H0 w1.
    - unfold w1. simpl. by rewrite app_nil_r.
    - unfold w1. rewrite foldl_snoc.
      destruct (IH w0 H0) as (H1 & H2 & H3).
      rewrite (queueUpdate_tracked _ _ h) by done. simpl.
      by rewrite H2, H3, app_assoc. }
  destruct Hc as [Hc1 Hc2].
  destruct (Hfold (cleanup w) Hc1) as (H1 & H2 & H3).
  unfold w'.
  split; [done|]. split; [by rewrite H2, Hc2|]. split; [done|].
  apply pending_nil. intros h' t. rewrite H3. intros Ht Hk.
  assert (Hin : h' ∈ pending FlushQueue (cleanup w))
    by (apply elem_of_pending; eauto).
  rewrite (no_flush_after_cleanup w (reachable_wf w Hr)) in Hin.
  by apply elem_of_nil in Hin.
Qed.

(** X16 at [busy_world], whose flush timer is pending at teardown. *)
Lemma updates_after_teardown_are_never_flushed_witness :
  reachable busy_world /\
  updateTimer (this busy_world) = Some 7%positive /\
  pending FlushQueue
    (foldl (fun w u => queueUpdate u w) (cleanup busy_world)
       [MetricsRefresh sample_metrics; PoolRefresh]) = [].
Proof.
  assert (Hr : reachable busy_world) by (apply reachable_run, reach_new).
  split; [exact Hr|]. split; [reflexivity|].
  exact (proj2 (proj2 (proj2
    (updates_after_teardown_are_never_flushed busy_world 7
       [MetricsRefresh sample_metrics; PoolRefresh] Hr eq_refl)))).
Defined.

(** ** Two more invariants of the event loop *)

Lemma timers_ok_ext w w' : core w' = core w -> timers_ok w -> timers_ok w'.
Proof.
  unfold core. intros [= Hws Hc Hhb Hq Hu Hp Ht Hn Hs] [].
  constructor; rewrite ?Hws, ?Ht; done.
Qed.

Lemma timers_ok_queueUpdate u w : timers_ok w -> timers_ok (queueUpdate u w).
Proof.
  intros [Hrep Hto]. unfold queueUpdate. simpl.
  destruct (updateTimer (this w)); constructor; simpl; try done;
    intros h t Ht; lookup_cases; eauto; done.
Qed.

Ltac timers_ok_solve Hrep Hto :=
  constructor; simpl;
  [ intros ? ? ?; lookup_cases; simpl; eauto
  | intros ? ? ? ?; lookup_cases; simpl in *; simplify_eq; eauto;
    try (match goal with Hw : websocket (this _) = None |- _ => rewrite Hw end;
         eauto) ].

Lemma timers_ok_step e w : timers_ok w -> timers_ok (step e w).
Proof.
  intros H.
  destruct e as [| | | | | | |s f| | | | | | | | |]; simpl.
  all: try (solve
    [ destruct (readyStateOf s w) as [[]|]; try done;
      apply handleWebSocketMessage_keeps;
      [ apply timers_ok_ext | apply timers_ok_queueUpdate | done ] ]).
  all: destruct H as [Hrep Hto]; unfold cleanup, stopPollingFallback;
    crush_step; timers_ok_solve Hrep Hto.
Qed.

Lemma reachable_timers_ok w : reachable w -> timers_ok w.
Proof.
  induction 1 as [opts pg stored|e w _ IH].
  - unfold new_client, startPollingFallback.
    constructor; simpl; intros h t Ht; lookup_cases; done.
  - by apply timers_ok_step.
Qed.

Lemma flush_scheduled_ext w w' :
  core w' = core w -> flush_scheduled w -> flush_scheduled w'.
Proof.
  unfold core, flush_scheduled. intros [= Hws Hc Hhb Hq Hu Hp Ht Hn Hs] H.
  by rewrite Hu, Ht.
Qed.

Lemma flush_scheduled_queueUpdate u w :
  flush_scheduled w -> flush_scheduled (queueUpdate u w).
Proof.
  intros H h. unfold queueUpdate. simpl.
  destruct (updateTimer (this w)) as [h0|] eqn:Hu; simpl.
  - rewrite Hu. intros [= <-]. by apply H.
  - intros [= <-]. by rewrite lookup_insert_eq.
Qed.

Lemma tracked_not_heartbeat w h :
  wf w -> updateTimer (this w) = Some h -> heartbeatTimer (this w) = Some h -> False.
Proof.
  intros Hwf Hu Hh. destruct (wf_heartbeat w Hwf h Hh) as (t & Ht & Hk & _).
  destruct (wf_update w Hwf h Hu) as [_ Hkind].
  destruct (Hkind t Ht). congruence.
Qed.

Lemma tracked_is_flush w h t :
  wf w -> updateTimer (this w) = Some h -> timers (env w) !! h = Some t ->
  on_fire t = FlushQueue.
Proof.
  intros Hwf Hu Ht. destruct (wf_update w Hwf h Hu) as [_ Hkind].
  by destruct (Hkind t Ht).
Qed.

Ltac flush_scheduled_solve Hwf Hfs :=
  intros ? ?; simpl in *; simplify_eq;
  repeat (rewrite lookup_insert_is_Some' || rewrite lookup_delete_is_Some);
  repeat first
    [ by left
    | right
    | split
    | by apply Hfs
    | by (intros ->; eapply tracked_not_heartbeat; eauto)
    | by (intros ->;
          match goal with
          | Ht : timers _ !! ?h = Some ?t, Hu : updateTimer _ = Some ?h |- _ =>
              pose proof (tracked_is_flush _ h t Hwf Hu Ht); congruence
          end) ].

Lemma flush_scheduled_step e w :
  wf w -> flush_scheduled w -> e <> BeforeUnload ->
  flush_scheduled (step e w).
Proof.
  intros Hwf Hfs He.
  destruct e as [| | | | | | |s f| | | | | | | | |]; try done; simpl.
  all: try (solve
    [ destruct (readyStateOf s w) as [[]|]; try done;
      apply handleWebSocketMessage_keeps;
      [ apply flush_scheduled_ext | apply flush_scheduled_queueUpdate | done ] ]).
  all: unfold flush_scheduled in *; crush_step; flush_scheduled_solve Hwf Hfs.
Qed.

Lemma live_flush_scheduled w : live w -> flush_scheduled w.
Proof.
  induction 1 as [opts pg stored|e w Hl IH He].
  - by intros h.
  - apply flush_scheduled_step; try done.
    by apply reachable_wf, live_reachable.
Qed.

(** ** Queued updates are flushed *)

(** X17.  Until teardown no queued update is stranded: whenever the buffer
    is not empty, the handle in [this.updateTimer] names the one flush
    timer that is pending, and when that timer fires the buffer is run and
    emptied. *)
Theorem queued_updates_have_a_flush_pending (w : world) :
  live w ->
  updateQueue (this w) <> [] ->
  exists h,
    updateTimer (this w) = Some h /\
    pending FlushQueue w = [h] /\
    let w' := step (TimerFires h) w in
    updateQueue (this w') = [] /\
    updateTimer (this w') = None /\
    invocations (trace (env w')) =
      invocations (trace (env w)) ++
      invoked_prefix (page (env w)) (updateQueue (this w)).
Proof.
  intros Hl Hq.
  pose proof (reachable_wf w (live_reachable w Hl)) as Hwf.
  destruct (updateTimer (this w)) as [h|] eqn:Hu;
    [|by destruct Hq; apply (wf_queue w Hwf)].
  exists h. split; [done|].
  destruct (live_flush_scheduled w Hl h Hu) as [t Ht].
  destruct (wf_update w Hwf h Hu) as [_ Hkind].
  destruct (Hkind t Ht) as [Hk Hrep].
  split.
  - apply pending_singleton. intros h'. rewrite elem_of_pending. split.
    + intros (t' & Ht' & Hk'). pose proof (wf_flush w Hwf h' t' Ht' Hk'). congruence.
    + intros ->. eauto.
  - assert (Heq : step (TimerFires h) w = processUpdateQueue (clearTimer h w)).
    { simpl. by rewrite Ht, Hk, Hrep. }
    rewrite Heq, processUpdateQueue_eq. simpl. repeat split.
    rewrite invocations_app. f_equal.
    change (invocations (FlushStarted :: ?l)) with (invocations l).
    rewrite invocations_app, invocations_Invoked.
    destruct (existsb _ _); simpl; by rewrite app_nil_r.
Qed.

(** X17 at [queued_world]. *)
Lemma queued_updates_have_a_flush_pending_witness :
  live queued_world /\
  updateQueue (this queued_world) <> [] /\
  exists h, updateTimer (this queued_world) = Some h /\
            pending FlushQueue queued_world = [h].
Proof.
  assert (Hl : live queued_world).
  { change queued_world with
      (step (CallQueueUpdate (External 3 false))
         (step (CallQueueUpdate (External 2 true))
            (step (CallQueueUpdate (External 1 false)) sample_world))).
    repeat (apply live_step; [|discriminate]). apply live_new. }
  assert (Hq : updateQueue (this queued_world) <> []) by discriminate.
  split; [exact Hl|]. split; [exact Hq|].
  destruct (queued_updates_have_a_flush_pending queued_world Hl Hq)
    as (h & Hu & Hp & _).
  exists h. split; [exact Hu|exact Hp].
Defined.

(** ** Polling runs until teardown *)

Lemma timer_kept_by_queueUpdate h t u w :
  wf w -> timers (env w) !! h = Some t ->
  timers (env (queueUpdate u w)) !! h = Some t.
Proof.
  intros Hwf Ht. unfold queueUpdate. simpl.
  destruct (updateTimer (this w)); simpl; [done|].
  rewrite lookup_insert_ne; [done|]. pose proof (wf_fresh w Hwf h t Ht). lia.
Qed.

Ltac timer_kept_solve Hwf Hok Ht Hk :=
  simpl in *; simplify_eq;
  repeat first
    [ rewrite lookup_insert_ne by
        (pose proof (wf_fresh _ Hwf _ _ Ht); lia)
    | rewrite lookup_delete_ne by
        (intros ->;
         first
           [ match goal with
             | Hh : heartbeatTimer _ = Some _ |- _ =>
                 destruct (wf_heartbeat _ Hwf _ Hh) as (? & ? & ? & _); congruence
             end
           | match goal with
             | Hr : repeats ?t0 = false |- _ =>
                 pose proof (ok_repeats _ Hok _ _ Ht) as Hrep;
                 simplify_eq; rewrite Hk in Hrep; simpl in Hrep; congruence
             end ]) ];
  try done.

(** X18.  No event other than teardown stops a polling interval: a polling
    timer that is pending stays pending through every socket event, timer,
    polling result and call of the public methods.  With X11 this means
    that each fallback to polling adds an interval that runs until the page
    is unloaded. *)
Theorem polling_only_stops_at_teardown (w : world) (e : event) (h : positive) :
  reachable w ->
  e <> BeforeUnload ->
  h ∈ pending PollMetrics w ->
  h ∈ pending PollMetrics (step e w).
Proof.
  intros Hr He. rewrite !elem_of_pending. intros (t & Ht & Hk).
  pose proof (reachable_wf w Hr) as Hwf.
  pose proof (reachable_timers_ok w Hr) as Hok.
  exists t. split; [|done].
  destruct e as [| | | | | | |s f| | | | | | | | |]; try done; simpl.
  all: try (solve
    [ destruct (readyStateOf s w) as [[]|]; try done;
      apply (handleWebSocketMessage_keeps
               (fun w' => wf w' /\ timers (env w') !! h = Some t));
      [ intros w1 w2 Hc [H1 H2]; split; [by eapply wf_ext|];
        unfold core in Hc; injection Hc; intros; congruence
      | intros u w1 [H1 H2]; split;
        [by apply wf_queueUpdate|by apply timer_kept_by_queueUpdate]
      | done ] ]).
  all: crush_step; timer_kept_solve Hwf Hok Ht Hk.
Qed.

Lemma polling_only_stops_at_teardown_witness :
  reachable (step CallConnect sample_world) /\
  SocketOpens 1 <> BeforeUnload /\
  1%positive ∈ pending PollMetrics (step CallConnect sample_world) /\
  1%positive ∈ pending PollMetrics (step (SocketOpens 1) (step CallConnect sample_world)).
Proof.
  assert (Hr : reachable (step CallConnect sample_world))
    by (apply reach_step, reach_new).
  assert (Hin : 1%positive ∈ pending PollMetrics (step CallConnect sample_world))
    by (vm_compute; apply list_elem_of_here).
  split; [exact Hr|]. split; [discriminate|]. split; [exact Hin|].
  refine (polling_only_stops_at_teardown _ (SocketOpens 1) 1 Hr _ Hin).
  discriminate.
Defined.

(** ** Callbacks and the socket reference *)

(** X19.  In every reachable state the socket is there wherever a callback
    dereferences it: the connection-timeout callback reads
    [this.websocket.readyState], and the heartbeat callback and both
    page-visibility handlers call [send], which reads it once [isConnected]
    holds.  So no pending timer callback throws when it fires, and neither
    [handlePageHidden] nor [handlePageVisible] throws. *)
Theorem callbacks_never_dereference_null (w : world) :
  reachable w ->
  (forall h t, timers (env w) !! h = Some t ->
     (runTimer (on_fire t) (if repeats t then w else clearTimer h w)).1 = Normal) /\
  (forall hidden : bool,
     ((if hidden then handlePageHidden else handlePageVisible) w).1 = Normal).
Proof.
  intros Hr. pose proof (reachable_wf w Hr) as Hwf.
  pose proof (reachable_timers_ok w Hr) as Hok.
  assert (Hopen : forall (body : positive -> world -> world) w0,
            (isConnected (this w0) = true -> is_Some (websocket (this w0))) ->
            (whenOpen body w0).1 = Normal).
  { intros body w0 Hc. unfold whenOpen.
    destruct (isConnected (this w0)); [|done].
    destruct (Hc eq_refl) as [s ->]. by destruct (readyStateOf s w0) as [[]|]. }
  split.
  - intros h t Ht. destruct (on_fire t) eqn:Hk; simpl; try done.
    + unfold connectionTimeout.
      destruct (ok_timeout w Hok h t Ht Hk) as [s Hs].
      assert (websocket (this (if repeats t then w else clearTimer h w)) = Some s)
        as -> by (by destruct (repeats t)).
      by destruct (readyStateOf s _) as [[]|].
    + apply Hopen. destruct (repeats t); simpl; apply (wf_connected w Hwf).
  - intros hidden. destruct hidden; unfold handlePageHidden, handlePageVisible;
      destruct (isConnected (this w)) eqn:Hc; try done;
      apply Hopen; intros _; by apply (wf_connected w Hwf).
Qed.

Lemma callbacks_never_dereference_null_witness :
  reachable busy_world /\
  (handlePageHidden busy_world).1 = Normal.
Proof.
  assert (Hr : reachable busy_world) by (apply reachable_run, reach_new).
  split; [exact Hr|].
  exact (proj2 (callbacks_never_dereference_null busy_world Hr) true).
Defined.


(** ** The dashboard's fetch and charts *)

(** X20.  [fetchWithRetry] called with retry count [retries] settles, after
    [n] further requests, as the request numbered [retries + n] settled:
    every earlier request failed (rejected, or answered with
    [response.ok] false), the delays awaited are
    [retryDelay * 2^k] for [k = retries .. retries + n - 1], at most
    [maxRetries - retries] retries are made, and a failure is what the
    caller gets only when that budget is used up. *)
Theorem fetchWithRetry_stops_at_success_or_budget fuel cfg net retries :
  (Z.to_nat (maxRetries cfg - retries) < fuel)%nat ->
  exists n : nat,
    fetchWithRetry fuel cfg net retries =
      Some (net (retries + Z.of_nat n),
            map (fun k => backoff cfg (retries + Z.of_nat k)) (seq 0 n)) /\
    (forall k, (k < n)%nat -> failed (net (retries + Z.of_nat k)) = true) /\
    (n <= Z.to_nat (maxRetries cfg - retries))%nat /\
    (failed (net (retries + Z.of_nat n)) = true ->
     n = Z.to_nat (maxRetries cfg - retries)).
Proof.
  revert retries. induction fuel as [|fuel IH]; intros retries Hfuel; [lia|].
  assert (Hagain : retries < maxRetries cfg ->
            failed (net retries) = true ->
            exists n : nat,
              match fetchWithRetry fuel cfg net (retries + 1) with
              | Some (r, waits) => Some (r, backoff cfg retries :: waits)
              | None => None
              end =
              Some (net (retries + Z.of_nat n),
                    map (fun k => backoff cfg (retries + Z.of_nat k)) (seq 0 n)) /\
              (forall k, (k < n)%nat -> failed (net (retries + Z.of_nat k)) = true) /\
              (n <= Z.to_nat (maxRetries cfg - retries))%nat /\
              (failed (net (retries + Z.of_nat n)) = true ->
               n = Z.to_nat (maxRetries cfg - retries))).
  { intros Hlt Hfail.
    destruct (IH (retries + 1)) as (n & Heq & Hbefore & Hle & Hlast); [lia|].
    exists (S n). rewrite Heq.
    replace (retries + Z.of_nat (S n)) with (retries + 1 + Z.of_nat n) by lia.
    split; [|split; [|split]].
    - f_equal. f_equal. simpl. rewrite Z.add_0_r. f_equal.
      rewrite <- seq_shift, map_map. apply map_ext. intros k. f_equal. lia.
    - intros [|k] Hk; [by rewrite Z.add_0_r|].
      replace (retries + Z.of_nat (S k)) with (retries + 1 + Z.of_nat k) by lia.
      apply Hbefore. lia.
    - lia.
    - intros Hf. specialize (Hlast Hf). lia. }
  assert (Hstop : forall o, net retries = o ->
            (failed o = true -> maxRetries cfg <= retries) ->
            exists n : nat,
              Some (o, @nil Q) =
              Some (net (retries + Z.of_nat n),
                    map (fun k => backoff cfg (retries + Z.of_nat k)) (seq 0 n)) /\
              (forall k, (k < n)%nat -> failed (net (retries + Z.of_nat k)) = true) /\
              (n <= Z.to_nat (maxRetries cfg - retries))%nat /\
              (failed (net (retries + Z.of_nat n)) = true ->
               n = Z.to_nat (maxRetries cfg - retries))).
  { intros o Ho Hmax. exists 0%nat. simpl. rewrite Z.add_0_r, Ho.
    split; [done|]. split; [lia|]. split; [lia|].
    intros Hf. specialize (Hmax Hf). lia. }
  simpl. destruct (net retries) as [ok body|error] eqn:Hnet.
  - destruct (Z.ltb_spec retries (maxRetries cfg)) as [Hlt|Hge];
      destruct ok; simpl.
    + apply Hstop; [done|]. done.
    + apply Hagain; [done|reflexivity].
    + apply Hstop; [done|]. done.
    + apply Hstop; [done|]. intros _. lia.
  - destruct (Z.ltb_spec retries (maxRetries cfg)) as [Hlt|Hge].
    + apply Hagain; [done|reflexivity].
    + apply Hstop; [done|]. intros _. lia.
Qed.







Lemma fetchWithRetry_stops_at_success_or_budget_witness :
  exists n : nat,
    fetchWithRetry 5 default_config always_rejected 0 =
      Some (always_rejected (0 + Z.of_nat n),
            map (fun k => backoff default_config (0 + Z.of_nat k)) (seq 0 n)) /\
    (forall k, (k < n)%nat -> failed (always_rejected (0 + Z.of_nat k)) = true) /\
    (n <= Z.to_nat (maxRetries default_config - 0))%nat /\
    (failed (always_rejected (0 + Z.of_nat n)) = true ->
     n = Z.to_nat (maxRetries default_config - 0)).
Proof.
  apply (fetchWithRetry_stops_at_success_or_budget 5 default_config always_rejected 0).
  vm_compute. lia.
Defined.
